(** * Rush runtime (src/runtime/runtime.c): value representation,
    constructors, printers and arithmetic dispatch.

    The C translation unit is embedded as it runs on an LP64 x86-64
    machine: [int] is 32 bits, [long long] and pointers are 64 bits,
    [double] is IEEE-754 binary64.

    - Machine integers are mathematical integers with the wrap-around
      written out: [+], [-] and [*] on [long long] are the wrapping machine
      operations; [/] is the machine division, which faults on a zero
      divisor and on a quotient that does not fit.
    - A [double] is an IEEE-754 datum (NaN sign and payload included); its
      object representation is the binary64 interchange encoding, so the
      pointer casts [*(long long* )&d] and [*(double* )&v] are the encoding
      and the decoding of the 64 bits.  Arithmetic on doubles is that of
      [SpecFloat], round to nearest, ties to even.
    - The standard output stream is the string of the bytes written so
      far; what libc produces for [%g] and what memory holds at the address
      of a string are parameters of the printers. *)

From Stdlib Require Import ZArith QArith Qpower Bool List Lia String Ascii.
From Stdlib Require Import SpecFloat DecimalString DecimalPos DecimalZ.
Import ListNotations.

Local Open Scope Z_scope.

(** ** Machine integers *)

Definition LLONG_MIN : Z := - 2 ^ 63.
Definition LLONG_MAX : Z := 2 ^ 63 - 1.

(** A value of type [long long]. *)
Definition longlong_range (z : Z) : Prop := LLONG_MIN <= z <= LLONG_MAX.

(** A 64-bit object representation, read as an unsigned number. *)
Definition word64_range (z : Z) : Prop := 0 <= z < 2 ^ 64.

(** The signed reading of a 64-bit pattern: the result of a wrapping
    machine operation stored in a [long long]. *)
Definition wrap_longlong (z : Z) : Z := (z + 2 ^ 63) mod 2 ^ 64 - 2 ^ 63.

(** The 64 bits of a [long long], read as an unsigned number. *)
Definition bits_of_longlong (z : Z) : Z := z mod 2 ^ 64.

(** ** The object type *)

(** [typedef enum { RUSH_NULL = 0, ... } RushObjectType;] the enumerators
    are [int] constants, and the [type] field is a plain [int]. *)
Definition RUSH_NULL : Z := 0.
Definition RUSH_INTEGER : Z := 1.
Definition RUSH_FLOAT : Z := 2.
Definition RUSH_BOOLEAN : Z := 3.
Definition RUSH_STRING : Z := 4.

(** [typedef struct { int type; long long value; } RushObject;] *)
Record RushObject : Type := mkRushObject {
  type : Z;
  value : Z
}.

(** ** IEEE-754 binary64 *)

Definition prec : Z := 53.
Definition emax : Z := 1024.

(** A [double]: the data of [spec_float], with the sign and the payload of
    a NaN kept, since the runtime moves doubles around as bit patterns. *)
Variant double : Type :=
  | D_zero (s : bool)
  | D_infinity (s : bool)
  | D_nan (s : bool) (pl : positive)
  | D_finite (s : bool) (m : positive) (e : Z).

(** The doubles that exist: a finite one has a canonical mantissa and
    exponent, a NaN has a non-zero payload of 52 bits. *)
Definition valid_double (d : double) : bool :=
  match d with
  | D_zero _ | D_infinity _ => true
  | D_nan _ pl => Zpos pl <? 2 ^ 52
  | D_finite _ m e => bounded prec emax m e
  end.

(** The three fields of the interchange format, packed. *)
Definition pack_fields (s : bool) (biased : Z) (frac : Z) : Z :=
  (if s then 2 ^ 63 else 0) + biased * 2 ^ 52 + frac.

(** Object representation of a double (unsigned 64-bit number). *)
Definition bits_of_double (d : double) : Z :=
  match d with
  | D_zero s => pack_fields s 0 0
  | D_infinity s => pack_fields s 2047 0
  | D_nan s pl => pack_fields s 2047 (Zpos pl)
  | D_finite s m e =>
      if 2 ^ 52 <=? Zpos m
      then pack_fields s (e + 1075) (Zpos m - 2 ^ 52)
      else pack_fields s 0 (Zpos m)
  end.

(** The double a 64-bit pattern stands for. *)
Definition double_of_bits (w : Z) : double :=
  let s := Z.testbit w 63 in
  let biased := (w / 2 ^ 52) mod 2 ^ 11 in
  let frac := w mod 2 ^ 52 in
  if biased =? 0 then
    match frac with
    | Zpos m => D_finite s m (-1074)
    | _ => D_zero s
    end
  else if biased =? 2047 then
    match frac with
    | Zpos pl => D_nan s pl
    | _ => D_infinity s
    end
  else
    match frac + 2 ^ 52 with
    | Zpos m => D_finite s m (biased - 1075)
    | _ => D_zero s
    end.

(** [*(long long* )&d] for [double d]. *)
Definition longlong_of_double_bits (d : double) : Z :=
  wrap_longlong (bits_of_double d).

(** [*(double* )&v] for [long long v]. *)
Definition double_of_longlong_bits (v : Z) : double :=
  double_of_bits (bits_of_longlong v).

(** The numeric reading used by the arithmetic. *)
Definition sf_of_double (d : double) : spec_float :=
  match d with
  | D_zero s => S754_zero s
  | D_infinity s => S754_infinity s
  | D_nan _ _ => S754_nan
  | D_finite s m e => S754_finite s m e
  end.

(** Quieting a NaN sets the top bit of its payload. *)
Definition quiet_nan (s : bool) (pl : positive) : double :=
  match Z.lor (Zpos pl) (2 ^ 51) with
  | Zpos q => D_nan s q
  | _ => D_nan s pl
  end.

(** The NaN an SSE2 scalar operation delivers: the first NaN operand,
    quieted; the default NaN when neither operand is one. *)
Definition nan_result (x y : double) : double :=
  match x, y with
  | D_nan s pl, _ => quiet_nan s pl
  | _, D_nan s pl => quiet_nan s pl
  | _, _ => D_nan true (Z.to_pos (2 ^ 51))
  end.

Definition double_of_sf (nan : double) (f : spec_float) : double :=
  match f with
  | S754_zero s => D_zero s
  | S754_infinity s => D_infinity s
  | S754_nan => nan
  | S754_finite s m e => D_finite s m e
  end.

Definition double_binop (op : spec_float -> spec_float -> spec_float)
    (x y : double) : double :=
  double_of_sf (nan_result x y) (op (sf_of_double x) (sf_of_double y)).

Definition double_add : double -> double -> double := double_binop (SFadd prec emax).
Definition double_sub : double -> double -> double := double_binop (SFsub prec emax).
Definition double_mul : double -> double -> double := double_binop (SFmul prec emax).
Definition double_div : double -> double -> double := double_binop (SFdiv prec emax).

(** [x == y] on doubles. *)
Definition double_eqb (x y : double) : bool :=
  SFeqb (sf_of_double x) (sf_of_double y).

(** [(double)v] for [long long v]: round to nearest, ties to even. *)
Definition double_of_longlong (v : Z) : double :=
  double_of_sf (D_zero false) (binary_normalize prec emax v 0 false).

(** The literal [0.0]. *)
Definition double_zero : double := D_zero false.

(** ** Constructors *)

Definition rush_make_integer (v : Z) : RushObject :=
  mkRushObject RUSH_INTEGER v.

Definition rush_make_float (v : double) : RushObject :=
  mkRushObject RUSH_FLOAT (longlong_of_double_bits v).

Definition rush_make_boolean (v : Z) : RushObject :=
  mkRushObject RUSH_BOOLEAN (if v =? 0 then 0 else 1).

(** [value] is the address held by the [const char*]. *)
Definition rush_make_string (v : Z) : RushObject :=
  mkRushObject RUSH_STRING (wrap_longlong v).

Definition rush_make_null : RushObject :=
  mkRushObject RUSH_NULL 0.

(** ** Arithmetic operations *)

(** The conversion each operand undergoes in a floating-point branch,
    [(o.type == RUSH_FLOAT) ? *(double* )&o.value : (double)o.value]. *)
Definition coerce_double (o : RushObject) : double :=
  if type o =? RUSH_FLOAT then double_of_longlong_bits (value o)
  else double_of_longlong (value o).

(** [a / b] on [long long]: the quotient truncated toward zero.  The machine
    division faults (and C leaves the behaviour undefined) when the divisor
    is zero or when the quotient is not representable, that is for
    [LLONG_MIN / -1]; [None] stands for that fault. *)
Definition longlong_div (a b : Z) : option Z :=
  if b =? 0 then None
  else if (a =? LLONG_MIN) && (b =? -1) then None
  else Some (Z.quot a b).

Definition rush_add (left right : RushObject) : RushObject :=
  if (type left =? RUSH_INTEGER) && (type right =? RUSH_INTEGER) then
    rush_make_integer (wrap_longlong (value left + value right))
  else if (type left =? RUSH_FLOAT) || (type right =? RUSH_FLOAT) then
    let left_val := coerce_double left in
    let right_val := coerce_double right in
    rush_make_float (double_add left_val right_val)
  else rush_make_null.

Definition rush_subtract (left right : RushObject) : RushObject :=
  if (type left =? RUSH_INTEGER) && (type right =? RUSH_INTEGER) then
    rush_make_integer (wrap_longlong (value left - value right))
  else if (type left =? RUSH_FLOAT) || (type right =? RUSH_FLOAT) then
    let left_val := coerce_double left in
    let right_val := coerce_double right in
    rush_make_float (double_sub left_val right_val)
  else rush_make_null.

Definition rush_multiply (left right : RushObject) : RushObject :=
  if (type left =? RUSH_INTEGER) && (type right =? RUSH_INTEGER) then
    rush_make_integer (wrap_longlong (value left * value right))
  else if (type left =? RUSH_FLOAT) || (type right =? RUSH_FLOAT) then
    let left_val := coerce_double left in
    let right_val := coerce_double right in
    rush_make_float (double_mul left_val right_val)
  else rush_make_null.

(** The only operation that can fault: [None] is the machine fault of the
    integer division, [Some v] a normal return. *)
Definition rush_divide (left right : RushObject) : option RushObject :=
  if (type left =? RUSH_INTEGER) && (type right =? RUSH_INTEGER) then
    if value right =? 0 then Some rush_make_null
    else option_map rush_make_integer (longlong_div (value left) (value right))
  else if (type left =? RUSH_FLOAT) || (type right =? RUSH_FLOAT) then
    let left_val := coerce_double left in
    let right_val := coerce_double right in
    if double_eqb right_val double_zero then Some rush_make_null
    else Some (rush_make_float (double_div left_val right_val))
  else Some rush_make_null.

(** ** Printers *)

(** The bytes buffered on the standard output stream so far. *)
Definition stdout : Type := string.

(** [printf("%lld", v)]. *)
Definition printf_lld (v : Z) (out : stdout) : stdout :=
  (out ++ NilZero.string_of_int (Z.to_int v))%string.

(** [printf("%s", s)], and [printf] of a format without conversions. *)
Definition printf_s (s : string) (out : stdout) : stdout :=
  (out ++ s)%string.

Definition newline : string := String (ascii_of_nat 10) EmptyString.

Section Printers.

(** What libc writes for [%g]. *)
Variable format_g : double -> string.

(** The NUL-terminated bytes that start at an address. *)
Variable c_string_at : Z -> string.

Definition rush_print_object (obj : RushObject) (out : stdout) : stdout :=
  if type obj =? RUSH_INTEGER then
    printf_lld (value obj) out
  else if type obj =? RUSH_FLOAT then
    printf_s (format_g (double_of_longlong_bits (value obj))) out
  else if type obj =? RUSH_BOOLEAN then
    printf_s (if value obj =? 0 then "false" else "true") out
  else if type obj =? RUSH_STRING then
    printf_s (c_string_at (bits_of_longlong (value obj))) out
  else
    printf_s "null" out.

Definition rush_println (obj : RushObject) (out : stdout) : stdout :=
  printf_s newline (rush_print_object obj out).

End Printers.

(** ** Vocabulary of the statements *)

(** Both operands are Integer: the first dispatch rule. *)
Definition both_integer (left right : RushObject) : Prop :=
  type left = RUSH_INTEGER /\ type right = RUSH_INTEGER.

(** Either operand is Float: the second dispatch rule. *)
Definition either_float (left right : RushObject) : Prop :=
  type left = RUSH_FLOAT \/ type right = RUSH_FLOAT.

(** The kinds that are neither Integer nor Float. *)
Definition non_numeric_kind (t : Z) : Prop :=
  t = RUSH_BOOLEAN \/ t = RUSH_STRING \/ t = RUSH_NULL.

(** A discriminant outside the enumeration. *)
Definition unrecognized_kind (t : Z) : Prop :=
  t <> RUSH_NULL /\ t <> RUSH_INTEGER /\ t <> RUSH_FLOAT /\
  t <> RUSH_BOOLEAN /\ t <> RUSH_STRING.

(** What the dispatch promises of an operation: Null exactly when no rule
    applies, an Integer under the first rule, a Float under the second. *)
Definition dispatches_by_kind (op : RushObject -> RushObject -> RushObject) : Prop :=
  forall left right,
    (op left right = rush_make_null <->
       ~ both_integer left right /\ ~ either_float left right) /\
    (both_integer left right -> type (op left right) = RUSH_INTEGER) /\
    (either_float left right -> type (op left right) = RUSH_FLOAT).

(** [r] is the Integer holding the exact result [z] reduced modulo [2 ^ 64]
    into the signed word. *)
Definition wraps_to (r : RushObject) (z : Z) : Prop :=
  type r = RUSH_INTEGER /\ longlong_range (value r) /\
  (value r - z) mod 2 ^ 64 = 0.

(** Exactly one operand is a Float and the other is a Boolean, a String or
    a Null. *)
Definition float_with_non_numeric (left right : RushObject) : Prop :=
  (type left = RUSH_FLOAT /\ non_numeric_kind (type right)) \/
  (non_numeric_kind (type left) /\ type right = RUSH_FLOAT).

(** The exact value of a finite double, as a rational number. *)
Definition Q_of_double (d : double) : option Q :=
  match d with
  | D_zero _ => Some (0 # 1)%Q
  | D_finite s m e =>
      Some (inject_Z (cond_Zopp s (Zpos m)) * Qpower (2 # 1) e)%Q
  | D_infinity _ | D_nan _ _ => None
  end.

(** [d] is the finite double whose value is the rational [q]. *)
Definition has_value (d : double) (q : Q) : Prop :=
  exists r, Q_of_double d = Some r /\ Qeq r q.

(** The doubles written [1.5] and [1.0] in the statements. *)
Definition double_1_5 : double := D_finite false (3 * 2 ^ 51) (-52).
Definition double_1_0 : double := D_finite false (2 ^ 52) (-52).

(** ** Raw buffer printers *)

(** The bytes that reached file descriptor 1 so far.  [write] is taken to
    transfer the whole buffer, which the callers assume as well: they
    ignore its return value. *)
Definition fd_output : Type := string.

Section RawPrinters.

(** The byte stored at each address. *)
Variable memory : Z -> ascii.

(** The [len] bytes that start at address [p]. *)
Fixpoint read_bytes (p : Z) (len : nat) : string :=
  match len with
  | O => EmptyString
  | S n => String (memory p) (read_bytes (p + 1) n)
  end.

(** [write(STDOUT_FILENO, buf, len)], [len] being a [size_t]. *)
Definition write_stdout (buf : Z) (len : Z) (out : fd_output) : fd_output :=
  (out ++ read_bytes buf (Z.to_nat len))%string.

Definition rush_print (str : Z) (len : Z) (out : fd_output) : fd_output :=
  write_stdout str len out.

(** The second [write] reads its one byte from the literal. *)
Definition rush_print_line (str : Z) (len : Z) (out : fd_output) : fd_output :=
  (write_stdout str len out ++ newline)%string.

End RawPrinters.

(** ** More vocabulary *)

(** What an arithmetic operation can hand back: the Null sentinel, or an
    Integer or a Float whose payload is a [long long]. *)
Definition arithmetic_result (o : RushObject) : Prop :=
  o = rush_make_null \/
  ((type o = RUSH_INTEGER \/ type o = RUSH_FLOAT) /\ longlong_range (value o)).

(** [mrs] is what is left of [p] after [k] bits were shifted out: the
    mantissa, the last bit shifted out (round bit) and whether any earlier
    one was set (sticky bit). *)
Definition shifted (p k : Z) (mrs : shr_record) : Prop :=
  exists rem : Z,
    0 <= shr_m mrs /\
    p = shr_m mrs * 2 ^ k + rem /\ 0 <= rem < 2 ^ k /\
    (shr_r mrs = true <-> 2 ^ k <= 2 * rem) /\
    (shr_s mrs = true <-> 2 * rem <> 0 /\ 2 * rem <> 2 ^ k).

Definition is_nan (d : double) : bool :=
  match d with
  | D_nan _ _ => true
  | _ => false
  end.

(** * The embedding on concrete inputs *)

Example bits_of_one_and_half :
  bits_of_double double_1_5 = 0x3FF8000000000000 /\
  valid_double double_1_5 = true.
Proof. split; reflexivity. Qed.

Example double_of_longlong_2 :
  bits_of_double (double_of_longlong 2) = 0x4000000000000000.
Proof. vm_compute. reflexivity. Qed.

Example double_of_longlong_minus_3 :
  bits_of_double (double_of_longlong (-3)) = 0xC008000000000000.
Proof. vm_compute. reflexivity. Qed.

(** [2^53 + 1] is not a double: the conversion rounds to even. *)
Example double_of_longlong_rounds :
  double_of_longlong (2 ^ 53 + 1) = double_of_longlong (2 ^ 53).
Proof. vm_compute. reflexivity. Qed.

Example double_add_2_and_1_5 :
  bits_of_double (double_add (double_of_longlong 2) (double_of_bits 0x3FF8000000000000))
  = 0x400C000000000000.
Proof. vm_compute. reflexivity. Qed.

(** [0.0 / 0.0] is the default NaN; [1.5 / 0.0] is [+inf]. *)
Example double_div_zero_by_zero :
  bits_of_double (double_div double_zero double_zero) = 0xFFF8000000000000 /\
  bits_of_double (double_div double_1_5 double_zero) = 0x7FF0000000000000.
Proof. vm_compute. split; reflexivity. Qed.

Example wrap_longlong_overflow :
  wrap_longlong (LLONG_MAX + 1) = LLONG_MIN /\ wrap_longlong (LLONG_MIN - 1) = LLONG_MAX.
Proof. split; reflexivity. Qed.

Example rush_add_integers_overflow :
  rush_add (rush_make_integer LLONG_MAX) (rush_make_integer 1) = rush_make_integer LLONG_MIN.
Proof. reflexivity. Qed.

Example rush_divide_truncates :
  rush_divide (rush_make_integer (-7)) (rush_make_integer 2) = Some (rush_make_integer (-3)) /\
  rush_divide (rush_make_integer 7) (rush_make_integer (-2)) = Some (rush_make_integer (-3)).
Proof. split; reflexivity. Qed.

Example printf_lld_signed :
  printf_lld (-42) "x"%string = "x-42"%string /\
  printf_lld 0 EmptyString = "0"%string.
Proof. vm_compute. split; reflexivity. Qed.

(** * Machine integers: wrap-around *)

Section MachineIntegers.

Lemma wrap_longlong_range (z : Z) : longlong_range (wrap_longlong z).
Proof.
  unfold longlong_range, wrap_longlong, LLONG_MIN, LLONG_MAX.
  pose proof (Z.mod_pos_bound (z + 2 ^ 63) (2 ^ 64) ltac:(lia)). lia.
Qed.

Lemma wrap_longlong_id (z : Z) : longlong_range z -> wrap_longlong z = z.
Proof.
  unfold longlong_range, wrap_longlong, LLONG_MIN, LLONG_MAX. intros Hz.
  rewrite Z.mod_small by lia. lia.
Qed.

Lemma wrap_longlong_congruent (z : Z) : (wrap_longlong z - z) mod 2 ^ 64 = 0.
Proof.
  unfold wrap_longlong.
  rewrite (Z.mod_eq (z + 2 ^ 63) (2 ^ 64)) by lia.
  replace (z + 2 ^ 63 - 2 ^ 64 * ((z + 2 ^ 63) / 2 ^ 64) - 2 ^ 63 - z)
    with ((- ((z + 2 ^ 63) / 2 ^ 64)) * 2 ^ 64) by lia.
  apply Z.mod_mul. lia.
Qed.

Lemma bits_of_wrap_longlong (w : Z) :
  word64_range w -> bits_of_longlong (wrap_longlong w) = w.
Proof.
  unfold word64_range, bits_of_longlong, wrap_longlong. intros Hw.
  symmetry. apply (Z.mod_unique _ _ (- ((w + 2 ^ 63) / 2 ^ 64))); [lia|].
  rewrite (Z.mod_eq (w + 2 ^ 63) (2 ^ 64)) by lia. lia.
Qed.

End MachineIntegers.

(** * The binary64 interchange encoding *)

Section Binary64Encoding.

Lemma digits2_pos_bounds (m : positive) :
  2 ^ (Zpos (digits2_pos m) - 1) <= Zpos m < 2 ^ Zpos (digits2_pos m).
Proof.
  induction m as [p IH | p IH | ]; cbn [digits2_pos].
  - rewrite Pos2Z.inj_succ, (Pos2Z.inj_xI p).
    replace (Z.succ (Zpos (digits2_pos p)) - 1)
      with (Z.succ (Zpos (digits2_pos p) - 1)) by lia.
    rewrite !Z.pow_succ_r by lia. lia.
  - rewrite Pos2Z.inj_succ, (Pos2Z.inj_xO p).
    replace (Z.succ (Zpos (digits2_pos p)) - 1)
      with (Z.succ (Zpos (digits2_pos p) - 1)) by lia.
    rewrite !Z.pow_succ_r by lia. lia.
  - cbn. lia.
Qed.

(** A finite double is subnormal (exponent pinned to the least one,
    mantissa below the hidden bit) or normal. *)
Lemma bounded_shape (m : positive) (e : Z) :
  bounded prec emax m e = true ->
  (Zpos m < 2 ^ 52 /\ e = -1074) \/
  (2 ^ 52 <= Zpos m < 2 ^ 53 /\ -1074 <= e <= 971).
Proof.
  unfold bounded, canonical_mantissa, fexp, emin, prec, emax.
  intros H. apply andb_true_iff in H. destruct H as [Hc He].
  apply Z.eqb_eq in Hc. apply Z.leb_le in He.
  pose proof (digits2_pos_bounds m) as Hd.
  set (d := Zpos (digits2_pos m)) in *.
  assert (Hdpos : 0 < d) by (subst d; lia).
  destruct (Z.max_spec (d + e - 53) (3 - 1024 - 53)) as [[Hlt Hmax] | [Hle Hmax]];
    rewrite Hmax in Hc.
  - left. split; [|lia].
    assert (Hd52 : d <= 52) by lia.
    destruct Hd as [_ Hd].
    eapply Z.lt_le_trans; [exact Hd|].
    apply Z.pow_le_mono_r; lia.
  - right. assert (Hd53 : d = 53) by lia.
    rewrite Hd53 in Hd. change (53 - 1) with 52 in Hd. lia.
Qed.

Variables (s : bool) (biased frac : Z).
Hypothesis Hbiased : 0 <= biased < 2 ^ 11.
Hypothesis Hfrac : 0 <= frac < 2 ^ 52.

Lemma pack_fields_range : word64_range (pack_fields s biased frac).
Proof. unfold word64_range, pack_fields. destruct s; lia. Qed.

Lemma pack_fields_frac : pack_fields s biased frac mod 2 ^ 52 = frac.
Proof.
  unfold pack_fields. symmetry.
  apply (Z.mod_unique _ _ ((if s then 2 ^ 11 else 0) + biased)); [lia|].
  destruct s; lia.
Qed.

Lemma pack_fields_biased : (pack_fields s biased frac / 2 ^ 52) mod 2 ^ 11 = biased.
Proof.
  unfold pack_fields.
  assert (Hq : (if s then 2 ^ 63 else 0) + biased * 2 ^ 52 + frac
               = 2 ^ 52 * ((if s then 2 ^ 11 else 0) + biased) + frac)
    by (destruct s; lia).
  rewrite <- (Z.div_unique _ _ _ _ (or_introl Hfrac) Hq).
  symmetry. apply (Z.mod_unique _ _ (if s then 1 else 0)); [lia|].
  destruct s; lia.
Qed.

Lemma pack_fields_sign : Z.testbit (pack_fields s biased frac) 63 = s.
Proof.
  assert (Hb : Z.b2z (Z.testbit (pack_fields s biased frac) 63) = Z.b2z s).
  { rewrite Z.testbit_spec' by lia. unfold pack_fields.
    assert (Hr : 0 <= biased * 2 ^ 52 + frac < 2 ^ 63) by lia.
    assert (Hq : (if s then 2 ^ 63 else 0) + biased * 2 ^ 52 + frac
                 = 2 ^ 63 * Z.b2z s + (biased * 2 ^ 52 + frac))
      by (destruct s; cbn [Z.b2z]; lia).
    rewrite <- (Z.div_unique _ _ _ _ (or_introl Hr) Hq).
    destruct s; reflexivity. }
  destruct (Z.testbit (pack_fields s biased frac) 63), s; cbn in Hb; congruence.
Qed.

End Binary64Encoding.

(** * Reinterpreting a double as a word and back *)

Ltac decode_fields :=
  unfold double_of_bits; cbv zeta;
  rewrite pack_fields_sign by lia;
  rewrite pack_fields_biased by lia;
  rewrite pack_fields_frac by lia.

Section Reinterpretation.

Lemma nan_payload_range (pl : positive) :
  (Zpos pl <? 2 ^ 52) = true -> 0 <= Zpos pl < 2 ^ 52.
Proof. intros H. apply Z.ltb_lt in H. lia. Qed.

Lemma bits_of_double_range (d : double) :
  valid_double d = true -> word64_range (bits_of_double d).
Proof.
  destruct d as [s | s | s pl | s m e]; cbn [valid_double bits_of_double]; intros Hv.
  - apply pack_fields_range; lia.
  - apply pack_fields_range; lia.
  - apply pack_fields_range; [lia | apply nan_payload_range; exact Hv].
  - destruct (bounded_shape m e Hv) as [[Hm He] | [Hm He]];
      destruct (Z.leb_spec (2 ^ 52) (Zpos m)); try lia;
      apply pack_fields_range; lia.
Qed.

Lemma double_of_bits_of_double (d : double) :
  valid_double d = true -> double_of_bits (bits_of_double d) = d.
Proof.
  destruct d as [s | s | s pl | s m e]; cbn [valid_double bits_of_double]; intros Hv.
  - assert (Hb : 0 <= 0 < 2 ^ 11) by lia. assert (Hf : 0 <= 0 < 2 ^ 52) by lia.
    decode_fields. reflexivity.
  - assert (Hb : 0 <= 2047 < 2 ^ 11) by lia. assert (Hf : 0 <= 0 < 2 ^ 52) by lia.
    decode_fields. reflexivity.
  - assert (Hb : 0 <= 2047 < 2 ^ 11) by lia.
    pose proof (nan_payload_range pl Hv) as Hf.
    decode_fields. reflexivity.
  - destruct (bounded_shape m e Hv) as [[Hm He] | [Hm He]];
      destruct (Z.leb_spec (2 ^ 52) (Zpos m)) as [Hge | Hlt]; try lia.
    + assert (Hb : 0 <= 0 < 2 ^ 11) by lia.
      assert (Hf : 0 <= Zpos m < 2 ^ 52) by lia.
      decode_fields. subst e. reflexivity.
    + assert (Hb : 0 <= e + 1075 < 2 ^ 11) by lia.
      assert (Hf : 0 <= Zpos m - 2 ^ 52 < 2 ^ 52) by lia.
      decode_fields.
      destruct (Z.eqb_spec (e + 1075) 0); [lia|].
      destruct (Z.eqb_spec (e + 1075) 2047); [lia|].
      replace (Zpos m - 2 ^ 52 + 2 ^ 52) with (Zpos m) by lia.
      f_equal. lia.
Qed.

(** [*(double* )&v] undoes [*(long long* )&d]. *)
Lemma double_of_longlong_bits_of_double (d : double) :
  valid_double d = true ->
  double_of_longlong_bits (longlong_of_double_bits d) = d.
Proof.
  intros Hv. unfold double_of_longlong_bits, longlong_of_double_bits.
  rewrite bits_of_wrap_longlong by (apply bits_of_double_range; exact Hv).
  apply double_of_bits_of_double; exact Hv.
Qed.

(** Every 64-bit word is the representation of exactly one double. *)

Lemma digits2_pos_subnormal (m : positive) :
  Zpos m < 2 ^ 52 -> Zpos (digits2_pos m) <= 52.
Proof.
  intros Hm. pose proof (digits2_pos_bounds m) as [Hlo _].
  destruct (Z_le_gt_dec (Zpos (digits2_pos m)) 52) as [Hle | Hgt]; [exact Hle |].
  assert (Hp : 2 ^ 52 <= 2 ^ (Zpos (digits2_pos m) - 1))
    by (apply Z.pow_le_mono_r; lia).
  lia.
Qed.

Lemma digits2_pos_normal (m : positive) :
  2 ^ 52 <= Zpos m < 2 ^ 53 -> Zpos (digits2_pos m) = 53.
Proof.
  intros Hm. pose proof (digits2_pos_bounds m) as [Hlo Hhi].
  destruct (Z_le_gt_dec (Zpos (digits2_pos m)) 52) as [Hle | Hgt].
  - assert (Hp : 2 ^ Zpos (digits2_pos m) <= 2 ^ 52)
      by (apply Z.pow_le_mono_r; lia).
    lia.
  - destruct (Z_le_gt_dec (Zpos (digits2_pos m)) 53) as [Hle' | Hgt']; [lia |].
    assert (Hp : 2 ^ 53 <= 2 ^ (Zpos (digits2_pos m) - 1))
      by (apply Z.pow_le_mono_r; lia).
    lia.
Qed.

Lemma bounded_subnormal (m : positive) :
  Zpos m < 2 ^ 52 -> bounded prec emax m (-1074) = true.
Proof.
  intros Hm. pose proof (digits2_pos_subnormal m Hm) as Hd.
  unfold bounded, canonical_mantissa, fexp, emin, prec, emax.
  apply andb_true_iff. split; [apply Z.eqb_eq; lia | reflexivity].
Qed.

Lemma bounded_normal (m : positive) (e : Z) :
  2 ^ 52 <= Zpos m < 2 ^ 53 -> -1074 <= e <= 971 ->
  bounded prec emax m e = true.
Proof.
  intros Hm He. pose proof (digits2_pos_normal m Hm) as Hd.
  unfold bounded, canonical_mantissa, fexp, emin, prec, emax.
  apply andb_true_iff. split; [apply Z.eqb_eq | apply Z.leb_le]; lia.
Qed.

Lemma word64_fields (w : Z) :
  word64_range w ->
  0 <= (w / 2 ^ 52) mod 2 ^ 11 < 2 ^ 11 /\
  0 <= w mod 2 ^ 52 < 2 ^ 52 /\
  w = pack_fields (Z.testbit w 63) ((w / 2 ^ 52) mod 2 ^ 11) (w mod 2 ^ 52).
Proof.
  unfold word64_range, pack_fields. intros Hw.
  pose proof (Z.mod_pos_bound (w / 2 ^ 52) (2 ^ 11) ltac:(lia)) as Hb.
  pose proof (Z.mod_pos_bound w (2 ^ 52) ltac:(lia)) as Hf.
  split; [exact Hb | split; [exact Hf |]].
  pose proof (Z.div_mod w (2 ^ 52) ltac:(lia)) as Hw52.
  pose proof (Z.div_mod (w / 2 ^ 52) (2 ^ 11) ltac:(lia)) as Hw11.
  rewrite Z.div_div in Hw11 by lia. change (2 ^ 52 * 2 ^ 11) with (2 ^ 63) in Hw11.
  assert (Hq : 0 <= w / 2 ^ 63 < 2).
  { split; [apply Z.div_pos; lia | apply Z.div_lt_upper_bound; lia]. }
  pose proof (Z.testbit_spec' w 63 ltac:(lia)) as Hs.
  rewrite (Z.mod_small (w / 2 ^ 63) 2 Hq) in Hs.
  destruct (Z.testbit w 63); cbn [Z.b2z] in Hs; lia.
Qed.

Lemma double_of_bits_valid (w : Z) :
  word64_range w -> valid_double (double_of_bits w) = true.
Proof.
  intros Hw. destruct (word64_fields w Hw) as (Hb & Hf & _).
  unfold double_of_bits; cbv zeta.
  destruct (Z.eqb_spec ((w / 2 ^ 52) mod 2 ^ 11) 0) as [H0 | H0].
  - destruct (w mod 2 ^ 52) as [| m | m] eqn:Hm; cbn [valid_double]; try reflexivity.
    apply bounded_subnormal; lia.
  - destruct (Z.eqb_spec ((w / 2 ^ 52) mod 2 ^ 11) 2047) as [H1 | H1].
    + destruct (w mod 2 ^ 52) as [| m | m] eqn:Hm; cbn [valid_double]; try reflexivity.
      apply Z.ltb_lt; lia.
    + destruct (w mod 2 ^ 52 + 2 ^ 52) as [| m | m] eqn:Hm; cbn [valid_double];
        try reflexivity.
      apply bounded_normal; lia.
Qed.

Lemma bits_of_double_of_bits (w : Z) :
  word64_range w -> bits_of_double (double_of_bits w) = w.
Proof.
  intros Hw. destruct (word64_fields w Hw) as (Hb & Hf & Hpack).
  rewrite Hpack at 2. unfold double_of_bits; cbv zeta.
  destruct (Z.eqb_spec ((w / 2 ^ 52) mod 2 ^ 11) 0) as [H0 | H0].
  - rewrite H0.
    destruct (w mod 2 ^ 52) as [| m | m] eqn:Hm; cbn [bits_of_double];
      try reflexivity; try lia.
    destruct (Z.leb_spec (2 ^ 52) (Zpos m)); [lia | reflexivity].
  - destruct (Z.eqb_spec ((w / 2 ^ 52) mod 2 ^ 11) 2047) as [H1 | H1].
    + rewrite H1.
      destruct (w mod 2 ^ 52) as [| m | m] eqn:Hm; cbn [bits_of_double];
        try reflexivity; lia.
    + destruct (w mod 2 ^ 52 + 2 ^ 52) as [| m | m] eqn:Hm; try lia.
      cbn [bits_of_double].
      destruct (Z.leb_spec (2 ^ 52) (Zpos m)); [| lia].
      unfold pack_fields. lia.
Qed.

(** [*(long long* )&d] undoes [*(double* )&v]. *)
Lemma longlong_of_double_bits_of_longlong (v : Z) :
  longlong_range v ->
  longlong_of_double_bits (double_of_longlong_bits v) = v.
Proof.
  intros Hv. unfold longlong_of_double_bits, double_of_longlong_bits, bits_of_longlong.
  rewrite bits_of_double_of_bits
    by (unfold word64_range; apply Z.mod_pos_bound; lia).
  unfold wrap_longlong, longlong_range, LLONG_MIN, LLONG_MAX in *.
  destruct (Z_lt_ge_dec v 0) as [Hneg | Hpos].
  - assert (Hm : v mod 2 ^ 64 = v + 2 ^ 64).
    { symmetry. apply (Z.mod_unique _ _ (-1)); lia. }
    rewrite Hm. replace (v + 2 ^ 64 + 2 ^ 63) with (v + 2 ^ 63 + 1 * 2 ^ 64) by lia.
    rewrite Z.mod_add by lia. rewrite Z.mod_small by lia. lia.
  - rewrite (Z.mod_small v) by lia. rewrite Z.mod_small by lia. lia.
Qed.


End Reinterpretation.

(** * Dispatch on the operand kinds *)

(** Case analysis on whether each operand is an Integer or a Float, as the
    two tests of every arithmetic operation perform it. *)
Ltac by_kinds left right :=
  unfold both_integer, either_float, RUSH_INTEGER, RUSH_FLOAT in *;
  destruct (Z.eqb_spec (type left) 1);
  destruct (Z.eqb_spec (type right) 1);
  destruct (Z.eqb_spec (type left) 2);
  destruct (Z.eqb_spec (type right) 2);
  cbn [andb orb].

Ltac dispatch_cases :=
  let left := fresh "left" in
  let right := fresh "right" in
  intros left right;
  unfold rush_add, rush_subtract, rush_multiply;
  unfold rush_make_integer, rush_make_float, rush_make_null, RUSH_NULL;
  by_kinds left right; cbn [type];
  (split;
   [ split;
     [ let Heq := fresh in intros Heq; try discriminate Heq; split; lia
     | intros [? ?]; try reflexivity; exfalso; lia ]
   | split; intros; try reflexivity; lia ]).

(** C1. Each of add, subtract and multiply returns the Null sentinel if and
    only if neither dispatch rule applies (not both operands Integer, and
    neither operand Float); with both operands Integer the result is an
    Integer, with either operand Float it is a Float. *)
Theorem C1_null_iff_no_rule_applies :
  dispatches_by_kind rush_add /\
  dispatches_by_kind rush_subtract /\
  dispatches_by_kind rush_multiply.
Proof.
  split; [| split]; dispatch_cases.
Qed.

(** * Integer arithmetic *)

Lemma wraps_to_wrap_longlong (z : Z) :
  wraps_to (rush_make_integer (wrap_longlong z)) z.
Proof.
  unfold wraps_to, rush_make_integer; cbn [type value].
  split; [reflexivity | split].
  - apply wrap_longlong_range.
  - apply wrap_longlong_congruent.
Qed.

(** C4. On two Integers, add, subtract and multiply yield the Integer
    whose payload is the exact sum, difference or product reduced modulo
    [2 ^ 64] into the signed 64-bit word. *)
Theorem C4_integer_operations_wrap (a b : Z) :
  wraps_to (rush_add (rush_make_integer a) (rush_make_integer b)) (a + b) /\
  wraps_to (rush_subtract (rush_make_integer a) (rush_make_integer b)) (a - b) /\
  wraps_to (rush_multiply (rush_make_integer a) (rush_make_integer b)) (a * b).
Proof.
  repeat split; try apply wrap_longlong_range; try apply wrap_longlong_congruent.
Qed.

(** The signed word a wrapped result lands on is unique: [wraps_to] pins
    the payload down. *)
Lemma wraps_to_unique (r1 r2 : RushObject) (z : Z) :
  wraps_to r1 z -> wraps_to r2 z -> r1 = r2.
Proof.
  destruct r1 as [t1 v1], r2 as [t2 v2]. unfold wraps_to, longlong_range, LLONG_MIN, LLONG_MAX.
  cbn [type value]. intros (-> & Hr1 & Hc1) (-> & Hr2 & Hc2). f_equal.
  apply Z.mod_divide in Hc1; [| lia]. apply Z.mod_divide in Hc2; [| lia].
  destruct Hc1 as [k1 Hk1], Hc2 as [k2 Hk2]. lia.
Qed.

(** Without overflow the result is the exact one. *)
Lemma rush_add_exact (a b : Z) :
  longlong_range (a + b) ->
  rush_add (rush_make_integer a) (rush_make_integer b) = rush_make_integer (a + b).
Proof.
  intros H. cbn. unfold rush_make_integer. f_equal. apply wrap_longlong_id; exact H.
Qed.

(** * Constructors *)

(** C8. [rush_make_boolean] is a total function; its result is a Boolean
    whose payload is exactly 1 for a non-zero argument and exactly 0 for a
    zero one. *)
Theorem C8_make_boolean_normalizes (v : Z) :
  type (rush_make_boolean v) = RUSH_BOOLEAN /\
  (v <> 0 -> value (rush_make_boolean v) = 1) /\
  (v = 0 -> value (rush_make_boolean v) = 0).
Proof.
  unfold rush_make_boolean; cbn [type value].
  destruct (Z.eqb_spec v 0); repeat split; intros; congruence.
Qed.

(** * Floats *)

(** C6. Reading the payload of [rush_make_float d] back as a double yields
    [d] itself, NaN sign and payload included: the payload holds the 64
    bits of [d], not a numeric conversion of it. *)
Theorem C6_make_float_round_trip (d : double) :
  valid_double d = true ->
  double_of_longlong_bits (value (rush_make_float d)) = d /\
  bits_of_longlong (value (rush_make_float d)) = bits_of_double d.
Proof.
  intros Hv. unfold rush_make_float; cbn [value]. split.
  - apply double_of_longlong_bits_of_double; exact Hv.
  - unfold longlong_of_double_bits.
    apply bits_of_wrap_longlong, bits_of_double_range; exact Hv.
Qed.

Lemma C6_make_float_round_trip_witness :
  valid_double (D_nan true 5) = true /\
  double_of_longlong_bits (value (rush_make_float (D_nan true 5))) = D_nan true 5 /\
  bits_of_longlong (value (rush_make_float (D_nan true 5))) = 0xFFF0000000000005.
Proof.
  split; [reflexivity |].
  exact (C6_make_float_round_trip (D_nan true 5) eq_refl).
Defined.

Lemma coerce_double_make_float (d : double) :
  valid_double d = true -> coerce_double (rush_make_float d) = d.
Proof.
  intros Hv. unfold coerce_double, rush_make_float; cbn [type value].
  apply double_of_longlong_bits_of_double; exact Hv.
Qed.

Lemma coerce_double_not_float (o : RushObject) :
  type o <> RUSH_FLOAT -> coerce_double o = double_of_longlong (value o).
Proof.
  intros Hk. unfold coerce_double.
  destruct (Z.eqb_spec (type o) RUSH_FLOAT); [contradiction | reflexivity].
Qed.

(** C5. Adding an Integer and a Float yields the Float whose payload is
    the bit pattern of [(double)a + x], the Integer being converted
    numerically and the Float read back from its bits; adding the Integer 2
    and the Float 1.5 yields the Float 3.5. *)
Theorem C5_add_integer_float :
  (forall (a : Z) (x : double),
      valid_double x = true ->
      rush_add (rush_make_integer a) (rush_make_float x)
      = rush_make_float (double_add (double_of_longlong a) x)) /\
  has_value double_1_5 (3 # 2) /\
  type (rush_add (rush_make_integer 2) (rush_make_float double_1_5)) = RUSH_FLOAT /\
  has_value
    (double_of_longlong_bits
       (value (rush_add (rush_make_integer 2) (rush_make_float double_1_5))))
    (7 # 2).
Proof.
  split; [| split; [| split]].
  - intros a x Hv. unfold rush_add. cbn [rush_make_integer type andb orb Z.eqb RUSH_INTEGER RUSH_FLOAT].
    change (type (rush_make_float x)) with 2. cbn [Z.eqb Pos.eqb andb orb]. cbv zeta.
    rewrite (coerce_double_make_float x Hv). reflexivity.
  - eexists. split; [reflexivity | vm_compute; reflexivity].
  - reflexivity.
  - eexists. split; [vm_compute; reflexivity | vm_compute; reflexivity].
Qed.

Lemma C5_add_integer_float_witness :
  valid_double double_1_0 = true /\
  rush_add (rush_make_integer (-3)) (rush_make_float double_1_0)
  = rush_make_float (double_add (double_of_longlong (-3)) double_1_0).
Proof.
  split; [reflexivity |].
  exact (proj1 C5_add_integer_float (-3) double_1_0 eq_refl).
Defined.

(** * Division *)

Lemma rush_divide_float_branch (left right : RushObject) :
  either_float left right ->
  rush_divide left right =
    if double_eqb (coerce_double right) double_zero then Some rush_make_null
    else Some (rush_make_float (double_div (coerce_double left) (coerce_double right))).
Proof.
  intros Hf. unfold rush_divide.
  by_kinds left right; try reflexivity; exfalso; lia.
Qed.

(** C2. Divide returns Null on a zero divisor: an Integer divided by the
    Integer 0 is Null; whenever the division proceeds in floating point and
    the right operand, coerced to double, compares equal to [0.0], the
    result is Null; in particular a Float divided by the Float [0.0] is
    Null. *)
Theorem C2_divide_by_zero_is_null :
  (forall a : Z,
      rush_divide (rush_make_integer a) (rush_make_integer 0) = Some rush_make_null) /\
  (forall left right : RushObject,
      either_float left right ->
      double_eqb (coerce_double right) double_zero = true ->
      rush_divide left right = Some rush_make_null) /\
  (forall x : double,
      rush_divide (rush_make_float x) (rush_make_float double_zero) = Some rush_make_null).
Proof.
  split; [| split].
  - intros a. reflexivity.
  - intros left right Hf Hz.
    rewrite (rush_divide_float_branch left right Hf), Hz. reflexivity.
  - intros x. reflexivity.
Qed.

Lemma C2_divide_by_zero_is_null_witness :
  rush_divide (rush_make_float double_1_5) (rush_make_boolean 0) = Some rush_make_null /\
  rush_divide (rush_make_integer 7) (rush_make_float (D_zero true)) = Some rush_make_null.
Proof.
  split.
  - apply (proj1 (proj2 C2_divide_by_zero_is_null)).
    + left. reflexivity.
    + reflexivity.
  - apply (proj1 (proj2 C2_divide_by_zero_is_null)).
    + right. reflexivity.
    + reflexivity.
Defined.

(** Where the quotient is representable, dividing two Integers yields the
    Integer holding the quotient truncated toward zero. *)
Lemma rush_divide_integers (a b : Z) :
  b <> 0 -> ~ (a = LLONG_MIN /\ b = -1) ->
  rush_divide (rush_make_integer a) (rush_make_integer b)
  = Some (rush_make_integer (Z.quot a b)).
Proof.
  intros Hb Hov. unfold rush_divide, longlong_div.
  cbn [rush_make_integer type value RUSH_INTEGER Z.eqb Pos.eqb andb].
  destruct (Z.eqb_spec b 0); [contradiction |].
  destruct (Z.eqb_spec a LLONG_MIN); destruct (Z.eqb_spec b (-1));
    cbn [andb option_map]; try reflexivity.
  exfalso. apply Hov. split; assumption.
Qed.

Lemma rush_divide_integers_witness :
  rush_divide (rush_make_integer (-7)) (rush_make_integer 2)
  = Some (rush_make_integer (-3)).
Proof.
  apply (rush_divide_integers (-7) 2).
  - discriminate.
  - intros [H _]. discriminate H.
Defined.

(** The truncated quotient of two [long long] values is representable
    except for [LLONG_MIN / -1], whose value is [2 ^ 63]. *)
Lemma quot_representable (a b : Z) :
  longlong_range a -> longlong_range b -> b <> 0 ->
  ~ (a = LLONG_MIN /\ b = -1) -> longlong_range (Z.quot a b).
Proof.
  unfold longlong_range, LLONG_MIN, LLONG_MAX. intros Ha Hb Hb0 Hov.
  pose proof (Z.quot_rem a b Hb0) as Hqr.
  pose proof (Z.rem_bound_abs a b Hb0) as Hr.
  assert (Habs : Z.abs (Z.quot a b) <= Z.abs a).
  { destruct (Z.eq_dec a 0) as [-> | Ha0].
    - rewrite Z.quot_0_l by exact Hb0. cbn. lia.
    - pose proof (Z.quot_abs a b Hb0) as Hq.
      assert (Hbpos : 1 <= Z.abs b) by lia.
      pose proof (Z.mul_quot_le (Z.abs a) (Z.abs b) ltac:(lia) ltac:(lia)) as Hm.
      rewrite <- Hq. nia. }
  destruct (Z.eq_dec a (- 2 ^ 63)) as [-> | Hne]; [| lia].
  assert (Hb1 : b <> -1) by (intros ->; apply Hov; split; reflexivity).
  destruct (Z.eq_dec b 1) as [-> | Hbn1].
  - rewrite Z.quot_1_r. lia.
  - assert (H2 : 2 <= Z.abs b) by lia.
    pose proof (Z.quot_abs (- 2 ^ 63) b Hb0) as Hq.
    pose proof (Z.mul_quot_le (Z.abs (- 2 ^ 63)) (Z.abs b) ltac:(lia) ltac:(lia)) as Hm.
    rewrite Hq in Hm. 
    assert (Z.abs (Z.quot (- 2 ^ 63) b) <= 2 ^ 62) by nia.
    lia.
Qed.

(** C3. For every non-zero divisor the quotient of two Integers should be
    an Integer; at [LLONG_MIN / -1], two values of type [long long] with a
    non-zero divisor, the truncated quotient [2 ^ 63] does not fit the
    payload and the machine division faults: no Integer is returned. *)
Theorem C3_divide_overflow_faults :
  longlong_range LLONG_MIN /\ longlong_range (-1) /\ -1 <> 0 /\
  Z.quot LLONG_MIN (-1) = 2 ^ 63 /\
  ~ longlong_range (Z.quot LLONG_MIN (-1)) /\
  rush_divide (rush_make_integer LLONG_MIN) (rush_make_integer (-1)) = None.
Proof.
  unfold longlong_range, LLONG_MIN, LLONG_MAX.
  split; [lia | split; [lia | split; [lia | split; [reflexivity | split]]]].
  - change (Z.quot (- 2 ^ 63) (-1)) with (2 ^ 63). lia.
  - reflexivity.
Qed.

(** * Operands that are neither Integer nor Float *)

Lemma rush_make_float_not_null (d : double) : rush_make_float d <> rush_make_null.
Proof. unfold rush_make_float, rush_make_null. intros H. discriminate H. Qed.

Lemma float_branch_taken (left right : RushObject) :
  either_float left right ->
  rush_add left right
  = rush_make_float (double_add (coerce_double left) (coerce_double right)) /\
  rush_subtract left right
  = rush_make_float (double_sub (coerce_double left) (coerce_double right)) /\
  rush_multiply left right
  = rush_make_float (double_mul (coerce_double left) (coerce_double right)).
Proof.
  intros Hf. unfold rush_add, rush_subtract, rush_multiply.
  by_kinds left right; repeat split; try reflexivity; exfalso; lia.
Qed.

Lemma no_rule_applies (left right : RushObject) :
  ~ both_integer left right -> ~ either_float left right ->
  rush_add left right = rush_make_null /\
  rush_subtract left right = rush_make_null /\
  rush_multiply left right = rush_make_null /\
  rush_divide left right = Some rush_make_null.
Proof.
  intros Hni Hnf. unfold rush_add, rush_subtract, rush_multiply, rush_divide.
  by_kinds left right; repeat split; try reflexivity; exfalso; lia.
Qed.

(** C7, as stated, fails: with a Float as the other operand the Null
    operand is converted to [0.0] and a Float comes back. *)
Lemma C7_null_with_float_counterexample :
  rush_add rush_make_null (rush_make_float double_1_5) = rush_make_float double_1_5 /\
  rush_add rush_make_null (rush_make_float double_1_5) <> rush_make_null /\
  rush_subtract (rush_make_float double_1_5) rush_make_null <> rush_make_null /\
  rush_multiply rush_make_null (rush_make_float double_1_5) <> rush_make_null /\
  rush_divide rush_make_null (rush_make_float double_1_5) <> Some rush_make_null.
Proof.
  split; [vm_compute; reflexivity |].
  repeat split; vm_compute; intros H; discriminate H.
Qed.

(** C7, amended. If either operand is the Null sentinel and the other
    operand is not a Float, each of add, subtract, multiply and divide
    returns the Null sentinel; divide returns it as well whenever its right
    operand is the Null sentinel, whatever the left one. *)
Theorem C7_null_operand_without_float :
  (forall v : RushObject,
      type v <> RUSH_FLOAT ->
      (rush_add rush_make_null v = rush_make_null /\
       rush_add v rush_make_null = rush_make_null) /\
      (rush_subtract rush_make_null v = rush_make_null /\
       rush_subtract v rush_make_null = rush_make_null) /\
      (rush_multiply rush_make_null v = rush_make_null /\
       rush_multiply v rush_make_null = rush_make_null) /\
      (rush_divide rush_make_null v = Some rush_make_null /\
       rush_divide v rush_make_null = Some rush_make_null)) /\
  (forall v : RushObject, rush_divide v rush_make_null = Some rush_make_null).
Proof.
  split.
  - intros v Hv.
    assert (Hl : ~ both_integer rush_make_null v /\ ~ either_float rush_make_null v).
    { unfold both_integer, either_float. cbn. split.
      - intros [H _]. discriminate H.
      - intros [H | H]; [discriminate H | contradiction]. }
    assert (Hr : ~ both_integer v rush_make_null /\ ~ either_float v rush_make_null).
    { unfold both_integer, either_float. cbn. split.
      - intros [_ H]. discriminate H.
      - intros [H | H]; [contradiction | discriminate H]. }
    destruct Hl as [Hl1 Hl2], Hr as [Hr1 Hr2].
    destruct (no_rule_applies rush_make_null v Hl1 Hl2) as (Ha & Hs & Hm & Hd).
    destruct (no_rule_applies v rush_make_null Hr1 Hr2) as (Ha' & Hs' & Hm' & Hd').
    repeat split; assumption.
  - intros v. unfold rush_divide.
    change (type rush_make_null) with 0. unfold RUSH_INTEGER, RUSH_FLOAT.
    cbn [Z.eqb andb]. rewrite Bool.andb_false_r, Bool.orb_false_r.
    destruct (Z.eqb_spec (type v) 2); reflexivity.
Qed.

Lemma C7_null_operand_without_float_witness :
  type (rush_make_integer 5) <> RUSH_FLOAT /\
  rush_add rush_make_null (rush_make_integer 5) = rush_make_null /\
  rush_divide (rush_make_integer 5) rush_make_null = Some rush_make_null.
Proof.
  assert (Hk : type (rush_make_integer 5) <> RUSH_FLOAT) by discriminate.
  split; [exact Hk |].
  pose proof (proj1 C7_null_operand_without_float (rush_make_integer 5) Hk)
    as (Ha & _ & _ & Hd).
  split; [exact (proj1 Ha) | exact (proj2 Hd)].
Defined.

Lemma float_with_non_numeric_rule (left right : RushObject) :
  float_with_non_numeric left right -> either_float left right.
Proof.
  unfold float_with_non_numeric, either_float.
  intros [[Hl _] | [_ Hr]]; [left | right]; assumption.
Qed.

(** C10, as stated, fails for divide: a Float divided by a Null, or by the
    Boolean false, has the divisor [0.0] and returns the Null sentinel. *)
Lemma C10_divide_by_non_numeric_zero_counterexample :
  float_with_non_numeric (rush_make_float double_1_5) rush_make_null /\
  rush_divide (rush_make_float double_1_5) rush_make_null = Some rush_make_null /\
  float_with_non_numeric (rush_make_float double_1_5) (rush_make_boolean 0) /\
  rush_divide (rush_make_float double_1_5) (rush_make_boolean 0) = Some rush_make_null.
Proof.
  unfold float_with_non_numeric, non_numeric_kind.
  split; [left; split; [reflexivity | right; right; reflexivity] |].
  split; [vm_compute; reflexivity |].
  split; [left; split; [reflexivity | left; reflexivity] |].
  vm_compute; reflexivity.
Qed.

(** C10, amended. If exactly one operand is a Float and the other is a
    Boolean, a String or a Null, then add, subtract and multiply do not
    return the Null sentinel: the raw payload of the other operand is
    converted numerically to double (the Boolean payload 1 to [1.0], the
    Null to [0.0], the address held by a String to that address as a
    double) and the Float of the floating-point result is returned.  Divide
    does the same unless the right operand so converted compares equal to
    [0.0], in which case it returns the Null sentinel. *)
Theorem C10_float_with_non_numeric_operand (left right : RushObject) :
  float_with_non_numeric left right ->
  (rush_add left right
   = rush_make_float (double_add (coerce_double left) (coerce_double right)) /\
   rush_subtract left right
   = rush_make_float (double_sub (coerce_double left) (coerce_double right)) /\
   rush_multiply left right
   = rush_make_float (double_mul (coerce_double left) (coerce_double right))) /\
  (rush_add left right <> rush_make_null /\
   rush_subtract left right <> rush_make_null /\
   rush_multiply left right <> rush_make_null) /\
  (double_eqb (coerce_double right) double_zero = false ->
   rush_divide left right
   = Some (rush_make_float (double_div (coerce_double left) (coerce_double right)))) /\
  (double_eqb (coerce_double right) double_zero = true ->
   rush_divide left right = Some rush_make_null) /\
  (forall o : RushObject,
      non_numeric_kind (type o) -> coerce_double o = double_of_longlong (value o)) /\
  (coerce_double (rush_make_boolean 1) = double_1_0 /\ has_value double_1_0 (1 # 1)) /\
  coerce_double rush_make_null = double_zero /\
  (forall p : Z,
      coerce_double (rush_make_string p) = double_of_longlong (value (rush_make_string p))).
Proof.
  intros H. pose proof (float_with_non_numeric_rule left right H) as Hf.
  destruct (float_branch_taken left right Hf) as (Ha & Hs & Hm).
  split; [repeat split; assumption |].
  split; [rewrite Ha, Hs, Hm; repeat split; apply rush_make_float_not_null |].
  split; [intros Hz; rewrite (rush_divide_float_branch left right Hf), Hz; reflexivity |].
  split; [intros Hz; rewrite (rush_divide_float_branch left right Hf), Hz; reflexivity |].
  split.
  { intros o Ho. apply coerce_double_not_float.
    unfold non_numeric_kind, RUSH_BOOLEAN, RUSH_STRING, RUSH_NULL, RUSH_FLOAT in *. lia. }
  split.
  { split; [vm_compute; reflexivity |].
    eexists. split; [reflexivity | vm_compute; reflexivity]. }
  split; [reflexivity |].
  intros p. reflexivity.
Qed.

Lemma C10_float_with_non_numeric_operand_witness :
  float_with_non_numeric (rush_make_boolean 1) (rush_make_float double_1_5) /\
  rush_add (rush_make_boolean 1) (rush_make_float double_1_5)
  = rush_make_float (double_add double_1_0 double_1_5) /\
  rush_divide (rush_make_boolean 1) (rush_make_float double_1_5)
  = Some (rush_make_float (double_div double_1_0 double_1_5)).
Proof.
  assert (Hk : float_with_non_numeric (rush_make_boolean 1) (rush_make_float double_1_5)).
  { right. split; [left; reflexivity | reflexivity]. }
  split; [exact Hk |].
  pose proof (C10_float_with_non_numeric_operand _ _ Hk)
    as ((Ha & _) & _ & Hd & _).
  split; [exact Ha | exact (Hd eq_refl)].
Defined.

(** * Printers *)

Section PrinterFacts.

Variable format_g : double -> string.
Variable c_string_at : Z -> string.

Lemma print_unrecognized (t v : Z) (out : stdout) :
  unrecognized_kind t ->
  rush_print_object format_g c_string_at (mkRushObject t v) out
  = (out ++ "null")%string.
Proof.
  unfold unrecognized_kind, rush_print_object; cbn [type value].
  intros (_ & Hi & Hf & Hb & Hs).
  destruct (Z.eqb_spec t RUSH_INTEGER); [contradiction |].
  destruct (Z.eqb_spec t RUSH_FLOAT); [contradiction |].
  destruct (Z.eqb_spec t RUSH_BOOLEAN); [contradiction |].
  destruct (Z.eqb_spec t RUSH_STRING); [contradiction |].
  reflexivity.
Qed.

End PrinterFacts.

(** C9. The printer renders by kind: the Integer 42 as the bytes [42],
    the Boolean made from 0 as [false], the Null as [null], and a value
    whose discriminant is none of the five ordinals as [null] too; the
    println variant writes what the plain printer writes, followed by one
    newline byte. *)
Theorem C9_print_object_renders_by_kind
    (format_g : double -> string) (c_string_at : Z -> string) (out : stdout) :
  rush_print_object format_g c_string_at (rush_make_integer 42) out
  = (out ++ "42")%string /\
  rush_print_object format_g c_string_at (rush_make_boolean 0) out
  = (out ++ "false")%string /\
  rush_print_object format_g c_string_at rush_make_null out
  = (out ++ "null")%string /\
  (forall t v : Z,
      unrecognized_kind t ->
      rush_print_object format_g c_string_at (mkRushObject t v) out
      = (out ++ "null")%string) /\
  (forall obj : RushObject,
      rush_println format_g c_string_at obj out
      = (rush_print_object format_g c_string_at obj out
           ++ String (ascii_of_nat 10) EmptyString)%string).
Proof.
  split; [reflexivity |].
  split; [reflexivity |].
  split; [reflexivity |].
  split; [intros t v Hk; apply print_unrecognized; exact Hk |].
  intros obj. reflexivity.
Qed.

Lemma C9_print_object_renders_by_kind_witness :
  unrecognized_kind 7 /\
  rush_print_object (fun _ => "g"%string) (fun _ => "s"%string)
    (mkRushObject 7 99) "x"%string = "xnull"%string /\
  rush_println (fun _ => "g"%string) (fun _ => "s"%string)
    (rush_make_integer (-42)) EmptyString
  = String.append "-42" (String (ascii_of_nat 10) EmptyString).
Proof.
  assert (Hk : unrecognized_kind 7) by (repeat split; discriminate).
  split; [exact Hk |].
  pose proof (C9_print_object_renders_by_kind
                (fun _ => "g"%string) (fun _ => "s"%string)) as Hp.
  split.
  - exact (proj1 (proj2 (proj2 (proj2 (Hp "x"%string)))) 7 99 Hk).
  - exact (proj2 (proj2 (proj2 (proj2 (Hp EmptyString)))) (rush_make_integer (-42))).
Defined.

(** * Laws of the Integer operations *)

Section IntegerLaws.

Lemma wrap_longlong_congruence (x y : Z) :
  (x - y) mod 2 ^ 64 = 0 -> wrap_longlong x = wrap_longlong y.
Proof.
  intros H. apply Z.mod_divide in H; [| lia]. destruct H as [k Hk].
  unfold wrap_longlong.
  replace (x + 2 ^ 63) with (y + 2 ^ 63 + k * 2 ^ 64) by lia.
  rewrite Z.mod_add by lia. reflexivity.
Qed.

Lemma wrap_longlong_divide (x : Z) : (2 ^ 64 | wrap_longlong x - x).
Proof. apply Z.mod_divide; [lia | apply wrap_longlong_congruent]. Qed.

(** Two exact results that agree modulo [2 ^ 64] wrap to the same word. *)
Ltac same_word :=
  apply wrap_longlong_congruence; apply Z.mod_divide; [lia |];
  repeat match goal with
  | |- context [wrap_longlong ?z] =>
      let k := fresh "k" in
      let Hk := fresh "Hk" in
      let w := fresh "w" in
      destruct (wrap_longlong_divide z) as [k Hk];
      remember (wrap_longlong z) as w
  end.

Lemma wrap_add_l (x y : Z) :
  wrap_longlong (wrap_longlong x + y) = wrap_longlong (x + y).
Proof.
  same_word. exists k. lia.
Qed.

Lemma wrap_add_r (x y : Z) :
  wrap_longlong (x + wrap_longlong y) = wrap_longlong (x + y).
Proof.
  same_word. exists k. lia.
Qed.

Lemma wrap_sub_l (x y : Z) :
  wrap_longlong (wrap_longlong x - y) = wrap_longlong (x - y).
Proof.
  same_word. exists k. lia.
Qed.

Lemma wrap_mul_l (x y : Z) :
  wrap_longlong (wrap_longlong x * y) = wrap_longlong (x * y).
Proof.
  same_word. exists (k * y). nia.
Qed.

Lemma wrap_mul_r (x y : Z) :
  wrap_longlong (x * wrap_longlong y) = wrap_longlong (x * y).
Proof.
  same_word. exists (x * k). nia.
Qed.

End IntegerLaws.

Lemma rush_add_integers (a b : Z) :
  rush_add (rush_make_integer a) (rush_make_integer b)
  = rush_make_integer (wrap_longlong (a + b)).
Proof. reflexivity. Qed.

Lemma rush_subtract_integers (a b : Z) :
  rush_subtract (rush_make_integer a) (rush_make_integer b)
  = rush_make_integer (wrap_longlong (a - b)).
Proof. reflexivity. Qed.

Lemma rush_multiply_integers (a b : Z) :
  rush_multiply (rush_make_integer a) (rush_make_integer b)
  = rush_make_integer (wrap_longlong (a * b)).
Proof. reflexivity. Qed.

Ltac integer_ops :=
  repeat first
    [ rewrite rush_add_integers
    | rewrite rush_subtract_integers
    | rewrite rush_multiply_integers ].

(** X1. Addition of Integers is associative and has the Integer 0 as its
    unit, also when an intermediate sum wraps around. *)
Theorem X1_integer_add_associative (a b c : Z) :
  longlong_range a ->
  rush_add (rush_add (rush_make_integer a) (rush_make_integer b)) (rush_make_integer c)
  = rush_add (rush_make_integer a) (rush_add (rush_make_integer b) (rush_make_integer c)) /\
  rush_add (rush_make_integer a) (rush_make_integer 0) = rush_make_integer a /\
  rush_add (rush_make_integer 0) (rush_make_integer a) = rush_make_integer a.
Proof.
  intros Ha. integer_ops. split; [| split].
  - f_equal. rewrite wrap_add_l, wrap_add_r. f_equal. lia.
  - f_equal. rewrite Z.add_0_r. apply wrap_longlong_id; exact Ha.
  - f_equal. apply wrap_longlong_id; exact Ha.
Qed.

Lemma X1_integer_add_associative_witness :
  longlong_range LLONG_MAX /\
  rush_add (rush_add (rush_make_integer LLONG_MAX) (rush_make_integer 1))
    (rush_make_integer (-1))
  = rush_add (rush_make_integer LLONG_MAX)
      (rush_add (rush_make_integer 1) (rush_make_integer (-1))).
Proof.
  assert (Hr : longlong_range LLONG_MAX) by (unfold longlong_range, LLONG_MIN, LLONG_MAX; lia).
  split; [exact Hr |].
  exact (proj1 (X1_integer_add_associative LLONG_MAX 1 (-1) Hr)).
Defined.

(** X2. Subtracting an Integer undoes adding it, and adding it back undoes
    subtracting it, whether or not the intermediate result wrapped. *)
Theorem X2_integer_subtract_undoes_add (a b : Z) :
  longlong_range a ->
  rush_subtract (rush_add (rush_make_integer a) (rush_make_integer b)) (rush_make_integer b)
  = rush_make_integer a /\
  rush_add (rush_subtract (rush_make_integer a) (rush_make_integer b)) (rush_make_integer b)
  = rush_make_integer a /\
  rush_subtract (rush_make_integer a) (rush_make_integer a) = rush_make_integer 0.
Proof.
  intros Ha. integer_ops.
  split; [| split]; f_equal.
  - rewrite wrap_sub_l. replace (a + b - b) with a by lia.
    apply wrap_longlong_id; exact Ha.
  - rewrite wrap_add_l. replace (a - b + b) with a by lia.
    apply wrap_longlong_id; exact Ha.
  - rewrite Z.sub_diag. reflexivity.
Qed.

Lemma X2_integer_subtract_undoes_add_witness :
  longlong_range LLONG_MAX /\
  rush_subtract
    (rush_add (rush_make_integer LLONG_MAX) (rush_make_integer 5)) (rush_make_integer 5)
  = rush_make_integer LLONG_MAX.
Proof.
  assert (Hr : longlong_range LLONG_MAX) by (unfold longlong_range, LLONG_MIN, LLONG_MAX; lia).
  split; [exact Hr |].
  exact (proj1 (X2_integer_subtract_undoes_add LLONG_MAX 5 Hr)).
Defined.

(** X3. Multiplication of Integers is associative, distributes over
    addition and subtraction, and has the Integer 1 as its unit, also when
    intermediate results wrap around. *)
Theorem X3_integer_multiply_laws (a b c : Z) :
  longlong_range a ->
  rush_multiply (rush_multiply (rush_make_integer a) (rush_make_integer b))
    (rush_make_integer c)
  = rush_multiply (rush_make_integer a)
      (rush_multiply (rush_make_integer b) (rush_make_integer c)) /\
  rush_multiply (rush_make_integer a) (rush_add (rush_make_integer b) (rush_make_integer c))
  = rush_add (rush_multiply (rush_make_integer a) (rush_make_integer b))
      (rush_multiply (rush_make_integer a) (rush_make_integer c)) /\
  rush_multiply (rush_make_integer a)
    (rush_subtract (rush_make_integer b) (rush_make_integer c))
  = rush_subtract (rush_multiply (rush_make_integer a) (rush_make_integer b))
      (rush_multiply (rush_make_integer a) (rush_make_integer c)) /\
  rush_multiply (rush_make_integer a) (rush_make_integer 1) = rush_make_integer a.
Proof.
  intros Ha.
  integer_ops.
  split; [| split; [| split]]; f_equal.
  - rewrite wrap_mul_l, wrap_mul_r. f_equal. lia.
  - rewrite wrap_mul_r, wrap_add_l, wrap_add_r. f_equal. lia.
  - rewrite wrap_mul_r, wrap_sub_l.
    apply wrap_longlong_congruence. apply Z.mod_divide; [lia |].
    destruct (wrap_longlong_divide (a * c)) as [k Hk].
    exists k. lia.
  - rewrite Z.mul_1_r. apply wrap_longlong_id; exact Ha.
Qed.

Lemma X3_integer_multiply_laws_witness :
  longlong_range (2 ^ 62) /\
  rush_multiply (rush_make_integer (2 ^ 62))
    (rush_add (rush_make_integer 3) (rush_make_integer 5))
  = rush_add (rush_multiply (rush_make_integer (2 ^ 62)) (rush_make_integer 3))
      (rush_multiply (rush_make_integer (2 ^ 62)) (rush_make_integer 5)).
Proof.
  assert (Hr : longlong_range (2 ^ 62)) by (unfold longlong_range, LLONG_MIN, LLONG_MAX; lia).
  split; [exact Hr |].
  exact (proj1 (proj2 (X3_integer_multiply_laws (2 ^ 62) 3 5 Hr))).
Defined.

(** * What the operations can return *)

(** X4. Divide faults in exactly one situation: both operands are Integers,
    the left one is [LLONG_MIN] and the right one is [-1].  Every other call
    returns a value. *)
Theorem X4_divide_faults_only_on_overflow (left right : RushObject) :
  rush_divide left right = None <->
  both_integer left right /\ value left = LLONG_MIN /\ value right = -1.
Proof.
  unfold rush_divide, longlong_div, both_integer, RUSH_INTEGER.
  destruct (Z.eqb_spec (type left) 1) as [Hl | Hl];
    destruct (Z.eqb_spec (type right) 1) as [Hr | Hr]; cbn [andb].
  - destruct (Z.eqb_spec (value right) 0) as [H0 | H0].
    + split; [discriminate | intros (_ & _ & H); lia].
    + destruct (Z.eqb_spec (value left) LLONG_MIN) as [Hm | Hm];
        destruct (Z.eqb_spec (value right) (-1)) as [H1 | H1]; cbn [andb option_map];
        split; try discriminate; try tauto.
  - split; [| tauto].
    destruct (_ || _); [destruct (double_eqb _ _) |]; discriminate.
  - split; [| tauto].
    destruct (_ || _); [destruct (double_eqb _ _) |]; discriminate.
  - split; [| tauto].
    destruct (_ || _); [destruct (double_eqb _ _) |]; discriminate.
Qed.

(** X5. Where it does not fault, the quotient of two Integers with a
    non-zero divisor is the Integer [q] obtained by truncation toward zero:
    the remainder [a - b * q] is smaller than the divisor in magnitude and
    never has the sign opposite to that of the dividend; [q] fits the
    payload. *)
Theorem X5_integer_quotient_truncates (a b : Z) :
  longlong_range a -> longlong_range b -> b <> 0 ->
  ~ (a = LLONG_MIN /\ b = -1) ->
  exists q : Z,
    rush_divide (rush_make_integer a) (rush_make_integer b)
    = Some (rush_make_integer q) /\
    longlong_range q /\
    Z.abs (a - b * q) < Z.abs b /\
    0 <= a * (a - b * q).
Proof.
  intros Ha Hb Hb0 Hov. exists (Z.quot a b).
  split; [apply rush_divide_integers; assumption |].
  split; [apply quot_representable; assumption |].
  pose proof (Z.quot_rem a b Hb0) as Hqr.
  replace (a - b * Z.quot a b) with (Z.rem a b) by lia.
  split.
  - apply Z.rem_bound_abs; exact Hb0.
  - rewrite Z.mul_comm. apply Z.rem_sign_mul; exact Hb0.
Qed.

Lemma X5_integer_quotient_truncates_witness :
  exists q : Z,
    rush_divide (rush_make_integer (-7)) (rush_make_integer 2)
    = Some (rush_make_integer q) /\
    longlong_range q /\
    Z.abs (-7 - 2 * q) < Z.abs 2 /\
    0 <= -7 * (-7 - 2 * q).
Proof.
  apply (X5_integer_quotient_truncates (-7) 2).
  - unfold longlong_range, LLONG_MIN, LLONG_MAX; lia.
  - unfold longlong_range, LLONG_MIN, LLONG_MAX; lia.
  - discriminate.
  - intros [H _]. discriminate H.
Defined.

Lemma arithmetic_result_integer (z : Z) :
  arithmetic_result (rush_make_integer (wrap_longlong z)).
Proof.
  right. split; [left; reflexivity | apply wrap_longlong_range].
Qed.

Lemma arithmetic_result_float (d : double) :
  arithmetic_result (rush_make_float d).
Proof.
  right. split; [right; reflexivity | apply wrap_longlong_range].
Qed.

Lemma arithmetic_result_null : arithmetic_result rush_make_null.
Proof. left. reflexivity. Qed.

(** X6. Whatever the operands, garbage discriminants and payloads
    included, add, subtract and multiply return the Null sentinel, or an
    Integer or a Float whose payload is a [long long]: never a Boolean, a
    String or a Null with a stray payload.  So does divide when it returns,
    given operands whose payloads are [long long] values. *)
Theorem X6_results_are_null_integer_or_float (left right : RushObject) :
  arithmetic_result (rush_add left right) /\
  arithmetic_result (rush_subtract left right) /\
  arithmetic_result (rush_multiply left right) /\
  (longlong_range (value left) -> longlong_range (value right) ->
   forall v : RushObject, rush_divide left right = Some v -> arithmetic_result v).
Proof.
  unfold rush_add, rush_subtract, rush_multiply, rush_divide.
  destruct ((type left =? RUSH_INTEGER) && (type right =? RUSH_INTEGER)).
  - repeat split; try apply arithmetic_result_integer.
    intros Hl Hr v. unfold longlong_div.
    destruct (Z.eqb_spec (value right) 0) as [H0 | H0].
    + intros [= <-]. apply arithmetic_result_null.
    + destruct (Z.eqb_spec (value left) LLONG_MIN) as [Hm | Hm];
        destruct (Z.eqb_spec (value right) (-1)) as [H1 | H1]; cbn [andb option_map];
        try discriminate; intros [= <-];
        (right; split; [left; reflexivity |]; cbn [rush_make_integer value];
         apply quot_representable; try assumption; tauto).
  - destruct ((type left =? RUSH_FLOAT) || (type right =? RUSH_FLOAT)); cbv zeta.
    + repeat split; try apply arithmetic_result_float.
      intros _ _ v. destruct (double_eqb _ _); intros [= <-];
        [apply arithmetic_result_null | apply arithmetic_result_float].
    + repeat split; try apply arithmetic_result_null.
      intros _ _ v [= <-]. apply arithmetic_result_null.
Qed.

Lemma X6_results_are_null_integer_or_float_witness :
  arithmetic_result (rush_add (mkRushObject 9 77) (rush_make_boolean 1)) /\
  arithmetic_result (rush_make_integer (-3)).
Proof.
  pose proof (X6_results_are_null_integer_or_float (mkRushObject 9 77) (rush_make_boolean 1))
    as (Ha & _).
  split; [exact Ha |].
  pose proof (X6_results_are_null_integer_or_float (rush_make_integer (-7)) (rush_make_integer 2))
    as (_ & _ & _ & Hd).
  apply Hd.
  - unfold longlong_range, LLONG_MIN, LLONG_MAX; cbn; lia.
  - unfold longlong_range, LLONG_MIN, LLONG_MAX; cbn; lia.
  - reflexivity.
Defined.

(** * Floats through the operations *)

Lemma coerce_double_make_integer (a : Z) :
  coerce_double (rush_make_integer a) = double_of_longlong a.
Proof. reflexivity. Qed.

Lemma either_float_left (x : double) (right : RushObject) :
  either_float (rush_make_float x) right.
Proof. left. reflexivity. Qed.

Lemma either_float_right (left : RushObject) (y : double) :
  either_float left (rush_make_float y).
Proof. right. reflexivity. Qed.



Lemma double_eqb_zero_iff (y : double) :
  double_eqb y double_zero = true <-> exists s : bool, y = D_zero s.
Proof.
  unfold double_eqb, double_zero, SFeqb.
  destruct y as [s | s | s pl | s m e]; cbn.
  - split; [intros _; exists s; reflexivity | reflexivity].
  - split; [destruct s; discriminate | intros [s' H]; discriminate H].
  - split; [discriminate | intros [s' H]; discriminate H].
  - split; [destruct s; discriminate | intros [s' H]; discriminate H].
Qed.

(** X8. Dividing by a Float returns the Null sentinel exactly when that
    Float is a zero, positive or negative, whatever the left operand: a
    NaN, an infinite or a subnormal divisor yields a Float. *)
Theorem X8_divide_by_float_null_iff_zero (left : RushObject) (y : double) :
  valid_double y = true ->
  (rush_divide left (rush_make_float y) = Some rush_make_null <->
   exists s : bool, y = D_zero s) /\
  ((forall s : bool, y <> D_zero s) ->
   rush_divide left (rush_make_float y)
   = Some (rush_make_float (double_div (coerce_double left) y))).
Proof.
  intros Hy.
  rewrite (rush_divide_float_branch _ _ (either_float_right left y)).
  rewrite (coerce_double_make_float y Hy).
  pose proof (double_eqb_zero_iff y) as Hz.
  destruct (double_eqb y double_zero).
  - split.
    + split; [intros _; apply Hz; reflexivity | reflexivity].
    + intros Hn. destruct (proj1 Hz eq_refl) as [s Hs]. destruct (Hn s Hs).
  - split.
    + split.
      * intros H. injection H as H _. discriminate H.
      * intros H. apply Hz in H. discriminate H.
    + reflexivity.
Qed.

Lemma X8_divide_by_float_null_iff_zero_witness :
  valid_double (D_zero true) = true /\
  rush_divide (rush_make_integer 7) (rush_make_float (D_zero true)) = Some rush_make_null.
Proof.
  split; [reflexivity |].
  apply (proj1 (X8_divide_by_float_null_iff_zero (rush_make_integer 7) (D_zero true) eq_refl)).
  exists true. reflexivity.
Defined.

(** X17. Distinct doubles make distinct Floats and distinct addresses make
    distinct Strings: no two inputs of a constructor share a Value. *)
Theorem X17_constructors_injective :
  (forall x y : double,
      valid_double x = true -> valid_double y = true ->
      rush_make_float x = rush_make_float y -> x = y) /\
  (forall p q : Z,
      word64_range p -> word64_range q ->
      rush_make_string p = rush_make_string q -> p = q) /\
  (forall a b : Z, rush_make_integer a = rush_make_integer b -> a = b).
Proof.
  split; [| split].
  - intros x y Hx Hy H.
    rewrite <- (coerce_double_make_float x Hx), <- (coerce_double_make_float y Hy), H.
    reflexivity.
  - intros p q Hp Hq H. unfold rush_make_string in H.
    injection H as H.
    rewrite <- (bits_of_wrap_longlong p Hp), <- (bits_of_wrap_longlong q Hq), H.
    reflexivity.
  - intros a b H. injection H as H. exact H.
Qed.

Lemma X17_constructors_injective_witness :
  valid_double (D_nan false 1) = true /\
  rush_make_float (D_nan false 1) = mkRushObject RUSH_FLOAT 0x7FF0000000000001 /\
  D_nan false 1 = D_nan false 1.
Proof.
  split; [reflexivity | split; [reflexivity |]].
  exact (proj1 X17_constructors_injective (D_nan false 1) (D_nan false 1)
           eq_refl eq_refl eq_refl).
Defined.

(** * Commutativity *)

Section Commutativity.

Lemma SFadd_comm (x y : spec_float) : SFadd prec emax x y = SFadd prec emax y x.
Proof.
  destruct x as [sx | sx | | sx mx ex], y as [sy | sy | | sy my ey];
    try reflexivity;
    try (destruct sx, sy; reflexivity).
  unfold SFadd; cbv zeta.
  rewrite (Z.min_comm ey ex).
  rewrite (Z.add_comm (cond_Zopp sy _)).
  reflexivity.
Qed.

Lemma SFmul_comm (x y : spec_float) : SFmul prec emax x y = SFmul prec emax y x.
Proof.
  destruct x as [sx | sx | | sx mx ex], y as [sy | sy | | sy my ey];
    try reflexivity;
    try (destruct sx, sy; reflexivity).
  unfold SFmul.
  rewrite (xorb_comm sy sx), (Pos.mul_comm my mx), (Z.add_comm ey ex).
  reflexivity.
Qed.

Lemma nan_result_comm (x y : double) :
  is_nan x && is_nan y = false -> nan_result x y = nan_result y x.
Proof.
  destruct x, y; cbn; intros H; try reflexivity; discriminate H.
Qed.

Lemma double_add_comm (x y : double) :
  is_nan x && is_nan y = false -> double_add x y = double_add y x.
Proof.
  intros H. unfold double_add, double_binop.
  rewrite SFadd_comm, (nan_result_comm x y H). reflexivity.
Qed.

Lemma double_mul_comm (x y : double) :
  is_nan x && is_nan y = false -> double_mul x y = double_mul y x.
Proof.
  intros H. unfold double_mul, double_binop.
  rewrite SFmul_comm, (nan_result_comm x y H). reflexivity.
Qed.

End Commutativity.

(** X9. Add and multiply are commutative on all Values, of any kinds,
    unless both operands come out as NaN doubles (then the payload of the
    left one is propagated). *)
Theorem X9_add_multiply_commutative (left right : RushObject) :
  is_nan (coerce_double left) && is_nan (coerce_double right) = false ->
  rush_add left right = rush_add right left /\
  rush_multiply left right = rush_multiply right left.
Proof.
  intros H. unfold rush_add, rush_multiply; cbv zeta.
  rewrite (andb_comm (type right =? RUSH_INTEGER)).
  rewrite (orb_comm (type right =? RUSH_FLOAT)).
  rewrite (Z.add_comm (value right)), (Z.mul_comm (value right)).
  rewrite (double_add_comm _ _ H), (double_mul_comm _ _ H).
  split; reflexivity.
Qed.

Lemma X9_add_multiply_commutative_witness :
  rush_add (rush_make_boolean 1) (rush_make_float double_1_5)
  = rush_add (rush_make_float double_1_5) (rush_make_boolean 1) /\
  rush_multiply (rush_make_integer 3) (rush_make_integer (-4))
  = rush_multiply (rush_make_integer (-4)) (rush_make_integer 3).
Proof.
  split.
  - exact (proj1 (X9_add_multiply_commutative
                    (rush_make_boolean 1) (rush_make_float double_1_5) eq_refl)).
  - exact (proj2 (X9_add_multiply_commutative
                    (rush_make_integer 3) (rush_make_integer (-4)) eq_refl)).
Defined.

(** * What the printers write *)

Section Strings.

Lemma append_assoc (s1 s2 s3 : string) :
  ((s1 ++ s2) ++ s3 = s1 ++ (s2 ++ s3))%string.
Proof.
  induction s1 as [| c s1 IH]; cbn; [reflexivity | rewrite IH; reflexivity].
Qed.

Lemma append_empty_r (s1 : string) : (s1 ++ EmptyString)%string = s1.
Proof.
  induction s1 as [| c s1 IH]; cbn; [reflexivity | rewrite IH; reflexivity].
Qed.

Lemma length_append (s1 s2 : string) :
  String.length (s1 ++ s2) = (String.length s1 + String.length s2)%nat.
Proof.
  induction s1 as [| c s1 IH]; cbn; [reflexivity | rewrite IH; reflexivity].
Qed.

Lemma append_cancel_l (s1 s2 s3 : string) :
  (s1 ++ s2 = s1 ++ s3)%string -> s2 = s3.
Proof.
  induction s1 as [| c s1 IH]; cbn; intros H; [exact H |].
  injection H as H. apply IH; exact H.
Qed.

End Strings.

Section PrintedText.

Variable format_g : double -> string.
Variable c_string_at : Z -> string.

(** X11. Printing the String made from an address writes the bytes found
    at that very address, for every 64-bit address, the upper half
    included, although the payload is then a negative [long long]. *)
Theorem X11_print_string_round_trip (p : Z) (out : stdout) :
  word64_range p ->
  rush_print_object format_g c_string_at (rush_make_string p) out
  = (out ++ c_string_at p)%string.
Proof.
  intros Hp. unfold rush_print_object, rush_make_string; cbn [type value].
  change (RUSH_STRING =? RUSH_INTEGER) with false.
  change (RUSH_STRING =? RUSH_FLOAT) with false.
  change (RUSH_STRING =? RUSH_BOOLEAN) with false.
  change (RUSH_STRING =? RUSH_STRING) with true. cbv iota.
  rewrite (bits_of_wrap_longlong p Hp). reflexivity.
Qed.

(** X12. Printing the Float made from a double formats that very double
    with [%g]. *)
Theorem X12_print_float_round_trip (d : double) (out : stdout) :
  valid_double d = true ->
  rush_print_object format_g c_string_at (rush_make_float d) out
  = (out ++ format_g d)%string.
Proof.
  intros Hd. unfold rush_print_object, rush_make_float; cbn [type value].
  change (RUSH_FLOAT =? RUSH_INTEGER) with false.
  change (RUSH_FLOAT =? RUSH_FLOAT) with true. cbv iota.
  rewrite (double_of_longlong_bits_of_double d Hd). reflexivity.
Qed.

(** X13. A Boolean prints as [true] exactly when its payload is not zero,
    out-of-contract payloads included; the Boolean made from an [int]
    prints as [true] exactly when the [int] is not zero. *)
Theorem X13_print_boolean (v : Z) (out : stdout) :
  (rush_print_object format_g c_string_at (mkRushObject RUSH_BOOLEAN v) out
   = (out ++ "true")%string <-> v <> 0) /\
  (rush_print_object format_g c_string_at (mkRushObject RUSH_BOOLEAN v) out
   = (out ++ "false")%string <-> v = 0) /\
  (rush_print_object format_g c_string_at (rush_make_boolean v) out
   = (out ++ "true")%string <-> v <> 0) /\
  (rush_print_object format_g c_string_at (rush_make_boolean v) out
   = (out ++ "false")%string <-> v = 0).
Proof.
  unfold rush_print_object, rush_make_boolean, printf_s; cbn [type value].
  change (RUSH_BOOLEAN =? RUSH_INTEGER) with false.
  change (RUSH_BOOLEAN =? RUSH_FLOAT) with false.
  change (RUSH_BOOLEAN =? RUSH_BOOLEAN) with true. cbv iota.
  destruct (Z.eqb_spec v 0) as [H0 | H0]; cbn [Z.eqb];
    repeat split; intros H; try reflexivity; try assumption; try contradiction;
    try (apply append_cancel_l in H; discriminate H).
Qed.

Lemma to_int_printable (n : Z) :
  Z.to_int n <> Decimal.Pos Decimal.Nil /\ Z.to_int n <> Decimal.Neg Decimal.Nil.
Proof.
  destruct n as [| q | q]; cbn; split; intros H; try discriminate H;
    injection H as H; exact (DecimalPos.Unsigned.to_uint_nonnil q H).
Qed.

Lemma printf_lld_parses (n : Z) :
  option_map Z.of_int (NilZero.int_of_string (NilZero.string_of_int (Z.to_int n)))
  = Some n.
Proof.
  destruct (to_int_printable n) as [Hp Hn].
  rewrite (NilZero.isi _ Hp Hn). cbn [option_map].
  rewrite DecimalZ.of_to. reflexivity.
Qed.

(** X14. The bytes written for an Integer are a decimal numeral that reads
    back as the payload, so two Integers printed alike are equal. *)
Theorem X14_print_integer_reads_back (n : Z) (out : stdout) :
  (exists text : string,
      rush_print_object format_g c_string_at (rush_make_integer n) out
      = (out ++ text)%string /\
      option_map Z.of_int (NilZero.int_of_string text) = Some n) /\
  (forall m : Z,
      rush_print_object format_g c_string_at (rush_make_integer m) out
      = rush_print_object format_g c_string_at (rush_make_integer n) out ->
      m = n).
Proof.
  split.
  - exists (NilZero.string_of_int (Z.to_int n)). split; [reflexivity |].
    apply printf_lld_parses.
  - intros m H.
    change (printf_lld m out = printf_lld n out) in H. unfold printf_lld in H.
    apply append_cancel_l in H.
    pose proof (printf_lld_parses m) as Hm. rewrite H, printf_lld_parses in Hm.
    injection Hm as Hm. symmetry. exact Hm.
Qed.



End PrintedText.

Lemma X11_print_string_round_trip_witness :
  word64_range (2 ^ 64 - 8) /\
  value (rush_make_string (2 ^ 64 - 8)) = -8 /\
  rush_print_object (fun _ => "g"%string)
    (fun p => if p =? 2 ^ 64 - 8 then "high"%string else "other"%string)
    (rush_make_string (2 ^ 64 - 8)) "x"%string
  = "xhigh"%string.
Proof.
  assert (Hp : word64_range (2 ^ 64 - 8)) by (unfold word64_range; lia).
  split; [exact Hp | split; [reflexivity |]].
  exact (X11_print_string_round_trip (fun _ => "g"%string)
           (fun p => if p =? 2 ^ 64 - 8 then "high"%string else "other"%string)
           (2 ^ 64 - 8) "x"%string Hp).
Defined.

Lemma X12_print_float_round_trip_witness :
  valid_double double_1_5 = true /\
  rush_print_object
    (fun d => if is_nan d then "nan"%string else "num"%string) (fun _ => "s"%string)
    (rush_make_float double_1_5) "x"%string
  = "xnum"%string.
Proof.
  split; [reflexivity |].
  exact (X12_print_float_round_trip
           (fun d => if is_nan d then "nan"%string else "num"%string) (fun _ => "s"%string)
           double_1_5 "x"%string eq_refl).
Defined.

(** * The raw buffer printers *)

Section RawPrinterFacts.

Variable memory : Z -> ascii.

Lemma read_bytes_length (p : Z) (len : nat) :
  String.length (read_bytes memory p len) = len.
Proof.
  revert p. induction len as [| n IH]; intros p; cbn; [reflexivity |].
  rewrite IH. reflexivity.
Qed.

Lemma read_bytes_split (p : Z) (n m : nat) :
  read_bytes memory p (n + m)
  = (read_bytes memory p n ++ read_bytes memory (p + Z.of_nat n) m)%string.
Proof.
  revert p. induction n as [| n IH]; intros p.
  - cbn [Nat.add read_bytes String.append]. rewrite Z.add_0_r. reflexivity.
  - cbn [Nat.add read_bytes String.append]. rewrite IH.
    replace (p + 1 + Z.of_nat n) with (p + Z.of_nat (S n)) by lia. reflexivity.
Qed.

Lemma read_bytes_get (p : Z) (len k : nat) :
  (k < len)%nat ->
  String.get k (read_bytes memory p len) = Some (memory (p + Z.of_nat k)).
Proof.
  revert p k. induction len as [| n IH]; intros p k Hk; [lia |].
  destruct k as [| k]; cbn [read_bytes String.get].
  - rewrite Z.add_0_r. reflexivity.
  - rewrite IH by lia. f_equal. f_equal. lia.
Qed.

Lemma get_append_r (s1 s2 : string) (k : nat) :
  String.get (String.length s1 + k) (s1 ++ s2) = String.get k s2.
Proof.
  induction s1 as [| c s1 IH]; cbn; [reflexivity | exact IH].
Qed.

Lemma get_append_l (s1 s2 : string) (k : nat) :
  (k < String.length s1)%nat -> String.get k (s1 ++ s2) = String.get k s1.
Proof.
  revert k. induction s1 as [| c s1 IH]; intros k Hk; cbn in Hk; [lia |].
  destruct k as [| k]; cbn; [reflexivity | apply IH; lia].
Qed.

(** X16. Printing a buffer in two consecutive pieces writes the same bytes
    as printing it whole; [rush_print] adds exactly [len] bytes and
    [rush_print_line] the same bytes followed by one newline byte. *)
Theorem X16_raw_print_in_pieces (str n m : Z) (out : fd_output) :
  0 <= n -> 0 <= m ->
  rush_print memory (str + n) m (rush_print memory str n out)
  = rush_print memory str (n + m) out /\
  String.length (rush_print memory str n out) = (String.length out + Z.to_nat n)%nat /\
  rush_print_line memory str n out = (rush_print memory str n out ++ newline)%string /\
  String.length (rush_print_line memory str n out)
  = S (String.length out + Z.to_nat n).
Proof.
  intros Hn Hm. unfold rush_print_line, rush_print, write_stdout.
  split; [| split; [| split]].
  - rewrite append_assoc. f_equal.
    rewrite Z2Nat.inj_add by assumption.
    rewrite read_bytes_split, Z2Nat.id by assumption. reflexivity.
  - rewrite length_append, read_bytes_length. reflexivity.
  - reflexivity.
  - rewrite !length_append, read_bytes_length. cbn. rewrite Nat.add_1_r. reflexivity.
Qed.

(** X18. The raw printer copies the buffer verbatim: the byte at offset
    [k] of what it adds is the byte stored at [str + k], a zero byte like
    any other, and nothing in front is touched. *)
Theorem X18_raw_print_verbatim (str len : Z) (k : nat) (out : fd_output) :
  (k < Z.to_nat len)%nat ->
  String.get (String.length out + k) (rush_print memory str len out)
  = Some (memory (str + Z.of_nat k)) /\
  String.get (String.length out + k) (rush_print_line memory str len out)
  = Some (memory (str + Z.of_nat k)) /\
  String.get (String.length out + Z.to_nat len) (rush_print_line memory str len out)
  = Some (ascii_of_nat 10).
Proof.
  intros Hk. unfold rush_print_line, rush_print, write_stdout.
  split; [| split].
  - rewrite get_append_r. apply read_bytes_get; exact Hk.
  - rewrite append_assoc, get_append_r.
    rewrite get_append_l by (rewrite read_bytes_length; exact Hk).
    apply read_bytes_get; exact Hk.
  - rewrite append_assoc, get_append_r.
    rewrite <- (read_bytes_length str (Z.to_nat len)) at 1.
    rewrite <- (Nat.add_0_r (String.length _)).
    rewrite get_append_r. reflexivity.
Qed.

End RawPrinterFacts.

Lemma X16_raw_print_in_pieces_witness :
  rush_print (fun a => if a =? 102 then "b"%char else "a"%char) 102 1
    (rush_print (fun a => if a =? 102 then "b"%char else "a"%char) 100 2 "x"%string)
  = "xaab"%string.
Proof.
  pose proof (X16_raw_print_in_pieces
                (fun a => if a =? 102 then "b"%char else "a"%char) 100 2 1 "x"%string
                ltac:(lia) ltac:(lia)) as (H & _).
  exact H.
Defined.

Lemma X18_raw_print_verbatim_witness :
  String.get 2
    (rush_print (fun a => if a =? 101 then zero else "a"%char) 100 3 "x"%string)
  = Some zero.
Proof.
  assert (Hk : (1 < Z.to_nat 3)%nat) by (cbn; lia).
  exact (proj1 (X18_raw_print_verbatim
                  (fun a => if a =? 101 then zero else "a"%char) 100 3 1 "x"%string Hk)).
Defined.

(** * Converting a [long long] to a double *)

Lemma shifted_start (p : Z) :
  0 <= p -> shifted p 0 (shr_record_of_loc p loc_Exact).
Proof.
  intros Hp. exists 0. cbn. repeat split; try lia; try discriminate.
Qed.

Lemma shifted_step (p k : Z) (mrs : shr_record) :
  0 <= k -> shifted p k mrs -> shifted p (k + 1) (shr_1 mrs).
Proof.
  intros Hk (rem & Hm & Hp & Hrem & Hr & Hs). unfold shifted.
  assert (Hpow : 0 < 2 ^ k) by (apply Z.pow_pos_nonneg; lia).
  assert (Hpow2 : 2 ^ (k + 1) = 2 * 2 ^ k)
    by (rewrite Z.pow_add_r, Z.pow_1_r by lia; lia).
  rewrite Hpow2.
  destruct mrs as [m r s]; cbn [shr_m shr_r shr_s] in *.
  assert (Hrs : r || s = true <-> rem <> 0).
  { rewrite orb_true_iff, Hr, Hs. lia. }
  assert (Hrs' : r || s = true -> rem <> 0) by apply Hrs.
  destruct m as [| [q | q |] | q]; cbn [shr_1 shr_m shr_r shr_s]; try lia;
    [ exists rem
    | exists (2 ^ k + rem); rewrite Pos2Z.inj_xI in Hp
    | exists rem; rewrite Pos2Z.inj_xO in Hp
    | exists (2 ^ k + rem) ];
    repeat split; intros;
    repeat match goal with H : _ /\ _ |- _ => destruct H end;
    try match goal with H : _ || _ = true |- _ => apply Hrs' in H end;
    first [ lia | discriminate | apply Hrs; lia ].
Qed.

Lemma shifted_iter (p : Z) (n : positive) :
  forall (k : Z) (mrs : shr_record),
    0 <= k -> shifted p k mrs -> shifted p (k + Zpos n) (iter_pos shr_1 n mrs).
Proof.
  induction n as [n IH | n IH |]; intros k mrs Hk H; cbn [iter_pos].
  - replace (k + Zpos n~1) with (k + 1 + Zpos n + Zpos n) by lia.
    apply IH; [lia |]. apply IH; [lia |]. apply shifted_step; assumption.
  - replace (k + Zpos n~0) with (k + Zpos n + Zpos n) by lia.
    apply IH; [lia |]. apply IH; assumption.
  - apply shifted_step; assumption.
Qed.

Lemma digits2_pos_unique (q : positive) (k : Z) :
  2 ^ (k - 1) <= Zpos q < 2 ^ k -> Zpos (digits2_pos q) = k.
Proof.
  intros [Hlo Hhi]. pose proof (digits2_pos_bounds q) as [Dlo Dhi].
  assert (Hk : 0 < k).
  { destruct (Z_lt_le_dec 0 k) as [H | H]; [exact H |].
    assert (2 ^ k <= 1).
    { destruct (Z.eq_dec k 0) as [-> | Hn]; [cbn; lia |].
      rewrite Z.pow_neg_r by lia. lia. }
    lia. }
  destruct (Z_lt_le_dec (Zpos (digits2_pos q)) k) as [Hlt | Hge].
  - assert (2 ^ Zpos (digits2_pos q) <= 2 ^ (k - 1)) by (apply Z.pow_le_mono_r; lia).
    lia.
  - destruct (Z_lt_le_dec k (Zpos (digits2_pos q))) as [Hgt | Hle]; [| lia].
    assert (2 ^ k <= 2 ^ (Zpos (digits2_pos q) - 1)) by (apply Z.pow_le_mono_r; lia).
    lia.
Qed.

Lemma iter_xO_pow (p k : positive) :
  Zpos (Pos.iter xO p k) = Zpos p * 2 ^ Zpos k.
Proof.
  induction k as [| k IH] using Pos.peano_ind.
  - cbn [Pos.iter]. rewrite Pos2Z.inj_xO. lia.
  - rewrite Pos.iter_succ, Pos2Z.inj_xO, IH, Pos2Z.inj_succ, Z.pow_succ_r by lia. lia.
Qed.

(** A mantissa of 53 digits with an exponent in range goes through the
    rounding untouched. *)
Lemma binary_round_aux_canonical (sx : bool) (m : positive) (e : Z) :
  Zpos (digits2_pos m) = 53 -> -1074 <= e <= 971 ->
  binary_round_aux prec emax sx (Zpos m) e loc_Exact = S754_finite sx m e.
Proof.
  intros Hd He.
  unfold binary_round_aux, shr_fexp, fexp, emin, Zdigits2, prec, emax.
  cbn [shr_record_of_loc]. rewrite Hd.
  replace (Z.max (53 + e - 53) (3 - 1024 - 53) - e) with 0 by lia.
  cbn [shr shr_m loc_of_shr_record round_nearest_even Zdigits2]. rewrite Hd.
  replace (Z.max (53 + e - 53) (3 - 1024 - 53) - e) with 0 by lia.
  cbn [shr shr_m shr_record_of_loc].
  destruct (Z.leb_spec e (1024 - 53)); [reflexivity | lia].
Qed.

Lemma binary_round_small (sx : bool) (p : positive) :
  Zpos p < 2 ^ 53 ->
  exists (m : positive) (e : Z),
    binary_round prec emax sx p 0 = S754_finite sx m e /\
    bounded prec emax m e = true /\
    -52 <= e <= 0 /\ Zpos m = Zpos p * 2 ^ (- e).
Proof.
  intros Hp. pose proof (digits2_pos_bounds p) as [Dlo Dhi].
  set (d := Zpos (digits2_pos p)) in *.
  assert (Hd : 1 <= d <= 53).
  { split; [subst d; lia |].
    destruct (Z_le_gt_dec d 53) as [H | H]; [exact H |].
    assert (2 ^ 53 <= 2 ^ (d - 1)) by (apply Z.pow_le_mono_r; lia). lia. }
  unfold binary_round, fexp, emin. fold d.
  replace (Z.max (d + 0 - prec) (3 - emax - prec)) with (d - 53)
    by (unfold prec, emax; lia).
  unfold shl_align.
  destruct (d - 53 - 0) as [| k | k] eqn:Hk; try lia.
  - exists p, 0. assert (d = 53) by lia.
    split; [apply binary_round_aux_canonical; [fold d; lia | lia] |].
    split; [apply bounded_normal; [| lia] |].
    + replace 52 with (d - 1) by lia. replace 53 with d by lia. lia.
    + split; [lia |]. cbn. lia.
  - exists (Pos.iter xO p k), (d - 53).
    assert (Hpow : 2 ^ (d - 1) * 2 ^ Zpos k = 2 ^ 52).
    { rewrite <- Z.pow_add_r by lia. f_equal. lia. }
    assert (Hpow' : 2 ^ d * 2 ^ Zpos k = 2 ^ 53).
    { rewrite <- Z.pow_add_r by lia. f_equal. lia. }
    assert (H2k : 0 < 2 ^ Zpos k) by (apply Z.pow_pos_nonneg; lia).
    assert (Hm : 2 ^ 52 <= Zpos (Pos.iter xO p k) < 2 ^ 53).
    { rewrite iter_xO_pow. nia. }
    split.
    + apply binary_round_aux_canonical; [| lia].
      apply digits2_pos_unique. exact Hm.
    + split; [apply bounded_normal; [exact Hm | lia] |].
      split; [lia |]. rewrite iter_xO_pow. f_equal. f_equal. lia.
Qed.

Lemma round_nearest_even_shifted (p n : Z) (mrs : shr_record) :
  0 < n -> shifted p n mrs ->
  let m2 := round_nearest_even (shr_m mrs) (loc_of_shr_record mrs) in
  shr_m mrs <= m2 <= shr_m mrs + 1 /\
  2 * Z.abs (m2 * 2 ^ n - p) <= 2 ^ n /\
  (2 * Z.abs (m2 * 2 ^ n - p) = 2 ^ n -> Z.even m2 = true).
Proof.
  intros Hn (rem & Hm & Hp & Hrem & Hr & Hs).
  destruct mrs as [m r s]; cbn [shr_m shr_r shr_s] in *.
  assert (Hpow : 0 < 2 ^ n) by (apply Z.pow_pos_nonneg; lia).
  destruct r, s; cbn [loc_of_shr_record round_nearest_even].
  - assert (2 ^ n <= 2 * rem) by (apply Hr; reflexivity).
    assert (2 * rem <> 0 /\ 2 * rem <> 2 ^ n) by (apply Hs; reflexivity).
    split; [lia | split; [nia | intros; exfalso; nia]].
  - assert (2 ^ n <= 2 * rem) by (apply Hr; reflexivity).
    assert (2 * rem = 2 ^ n).
    { destruct (Z.eq_dec (2 * rem) (2 ^ n)) as [E | E]; [exact E |].
      assert (false = true) by (apply Hs; lia). discriminate. }
    destruct (Z.even m) eqn:Hev.
    + split; [lia | split; [nia | intros _; exact Hev]].
    + split; [lia | split; [nia | intros _]].
      rewrite Z.add_1_r, Z.even_succ, <- Z.negb_even, Hev. reflexivity.
  - assert (~ 2 ^ n <= 2 * rem) by (intros H; apply Hr in H; discriminate H).
    assert (2 * rem <> 0 /\ 2 * rem <> 2 ^ n) by (apply Hs; reflexivity).
    split; [lia | split; [nia | intros; exfalso; nia]].
  - assert (~ 2 ^ n <= 2 * rem) by (intros H; apply Hr in H; discriminate H).
    assert (rem = 0).
    { destruct (Z.eq_dec rem 0) as [E | E]; [exact E |].
      assert (false = true) by (apply Hs; lia). discriminate. }
    split; [lia | split; [nia | intros; exfalso; nia]].
Qed.

Lemma binary_round_large (sx : bool) (p : positive) :
  2 ^ 53 <= Zpos p <= 2 ^ 63 ->
  exists (m : positive) (e : Z),
    binary_round prec emax sx p 0 = S754_finite sx m e /\
    bounded prec emax m e = true /\
    0 < e <= 12 /\ 2 * Z.abs (Zpos m * 2 ^ e - Zpos p) <= 2 ^ e /\
    (2 * Z.abs (Zpos m * 2 ^ e - Zpos p) = 2 ^ e -> Z.even (Zpos m) = true).
Proof.
  intros Hp. pose proof (digits2_pos_bounds p) as [Dlo Dhi].
  set (d := Zpos (digits2_pos p)) in *.
  assert (Hd : 54 <= d <= 64).
  { split.
    - destruct (Z_le_gt_dec 54 d) as [H | H]; [exact H |].
      assert (2 ^ d <= 2 ^ 53) by (apply Z.pow_le_mono_r; lia). lia.
    - destruct (Z_le_gt_dec d 64) as [H | H]; [exact H |].
      assert (2 ^ 64 <= 2 ^ (d - 1)) by (apply Z.pow_le_mono_r; lia). lia. }
  unfold binary_round, fexp, emin. fold d.
  replace (Z.max (d + 0 - prec) (3 - emax - prec)) with (d - 53)
    by (unfold prec, emax; lia).
  unfold shl_align.
  destruct (d - 53 - 0) as [| k | k] eqn:Hk; try lia.
  unfold binary_round_aux, shr_fexp at 1, fexp, emin, Zdigits2. fold d.
  replace (Z.max (d + 0 - prec) (3 - emax - prec) - 0) with (Zpos k)
    by (unfold prec, emax; lia).
  cbn [shr].
  pose proof (shifted_iter (Zpos p) k 0 (shr_record_of_loc (Zpos p) loc_Exact)
                ltac:(lia) (shifted_start (Zpos p) ltac:(lia))) as Hsh.
  rewrite Z.add_0_l in *.
  set (mrs := iter_pos shr_1 k (shr_record_of_loc (Zpos p) loc_Exact)) in *.
  pose proof (round_nearest_even_shifted (Zpos p) (Zpos k) mrs ltac:(lia) Hsh) as Hrnd.
  cbv zeta in Hrnd.
  set (m2 := round_nearest_even (shr_m mrs) (loc_of_shr_record mrs)) in *.
  destruct Hrnd as (Hm2 & Herr & Htie).
  destruct Hsh as (rem & Hm & Hpeq & Hrem & _ & _).
  assert (H2k : 0 < 2 ^ Zpos k) by (apply Z.pow_pos_nonneg; lia).
  assert (Hpow : 2 ^ (d - 1) = 2 ^ 52 * 2 ^ Zpos k).
  { rewrite <- Z.pow_add_r by lia. f_equal. lia. }
  assert (Hpow' : 2 ^ d = 2 ^ 53 * 2 ^ Zpos k).
  { rewrite <- Z.pow_add_r by lia. f_equal. lia. }
  assert (Hm1 : 2 ^ 52 <= shr_m mrs < 2 ^ 53) by nia.
  destruct (Z.eq_dec m2 (2 ^ 53)) as [Htop | Hlow].
  - exists (2 ^ 52)%positive, (Zpos k + 1).
    rewrite Htop.
    split.
    + unfold shr_fexp, fexp, emin, prec, emax.
      change (Zdigits2 (2 ^ 53)) with 54.
      replace (Z.max (54 + Z.pos k - 53) (3 - 1024 - 53) - Z.pos k) with 1 by lia.
      cbn [shr shr_record_of_loc iter_pos]. cbn [shr_1 Z.pow Z.pow_pos Pos.iter Z.mul Pos.mul shr_m].
      destruct (Z.leb_spec (Zpos k + 1) (1024 - 53)); [reflexivity | lia].
    + split; [apply bounded_normal; [cbn; lia | lia] |].
      split; [lia |]. split; [| intros _; reflexivity].
      rewrite Z.pow_add_r, Z.pow_1_r by lia.
      rewrite Htop in Herr. change (Zpos (2 ^ 52)) with (2 ^ 52). lia.
  - destruct m2 as [| q | q] eqn:Hq; try lia.
    exists q, (Zpos k).
    assert (Hdq : Zpos (digits2_pos q) = 53) by (apply digits2_pos_unique; lia).
    split.
    + unfold shr_fexp, fexp, emin, prec, emax, Zdigits2.
      rewrite Hdq.
      replace (Z.max (53 + Z.pos k - 53) (3 - 1024 - 53) - Z.pos k) with 0 by lia.
      cbn [shr shr_record_of_loc shr_m].
      destruct (Z.leb_spec (Zpos k) (1024 - 53)); [reflexivity | lia].
    + split; [apply bounded_normal; lia |].
      split; [lia | split; [exact Herr | exact Htie]].
Qed.

Lemma Q_of_double_scaled (s : bool) (m : positive) (e a : Z) :
  e <= 0 -> Zpos m = a * 2 ^ (- e) ->
  has_value (D_finite s m e) (inject_Z (cond_Zopp s a)).
Proof.
  intros He Hm. eexists. split; [reflexivity |].
  assert (Hpow : 0 < 2 ^ (- e)) by (apply Z.pow_pos_nonneg; lia).
  replace (cond_Zopp s (Zpos m)) with (cond_Zopp s a * 2 ^ (- e))
    by (rewrite Hm; destruct s; cbn [cond_Zopp]; lia).
  rewrite inject_Z_mult.
  replace e with (- (- e)) at 2 by lia.
  rewrite Qpower_opp.
  rewrite (Zpower_Qpower 2 (- e)) by lia.
  change (inject_Z 2) with (2 # 1)%Q.
  rewrite <- Qmult_assoc, Qmult_inv_r, Qmult_1_r; [reflexivity |].
  apply Qpower_not_0. discriminate.
Qed.

Lemma double_of_longlong_sign (v : Z) :
  double_of_longlong v =
  match v with
  | Z0 => D_zero false
  | Zpos p => double_of_sf (D_zero false) (binary_round prec emax false p 0)
  | Zneg p => double_of_sf (D_zero false) (binary_round prec emax true p 0)
  end.
Proof. destruct v; reflexivity. Qed.

Lemma double_of_longlong_exact (v : Z) :
  Z.abs v < 2 ^ 53 ->
  has_value (double_of_longlong v) (inject_Z v) /\
  valid_double (double_of_longlong v) = true.
Proof.
  intros Hv. rewrite double_of_longlong_sign. destruct v as [| p | p].
  - split; [| reflexivity]. eexists. split; reflexivity.
  - destruct (binary_round_small false p Hv) as (m & e & -> & Hb & He & Hm).
    cbn [double_of_sf valid_double]. split; [| exact Hb].
    apply (Q_of_double_scaled false m e (Zpos p)); [lia | exact Hm].
  - destruct (binary_round_small true p Hv) as (m & e & -> & Hb & He & Hm).
    cbn [double_of_sf valid_double]. split; [| exact Hb].
    apply (Q_of_double_scaled true m e (Zpos p)); [lia | exact Hm].
Qed.

Lemma double_of_longlong_rounded (v : Z) :
  longlong_range v -> v <> 0 ->
  exists (m : positive) (e : Z),
    double_of_longlong v = D_finite (v <? 0) m e /\
    bounded prec emax m e = true /\
    ((e <= 0 /\ Zpos m = Z.abs v * 2 ^ (- e)) \/
     (0 < e /\ 2 * Z.abs (Zpos m * 2 ^ e - Z.abs v) <= 2 ^ e /\
      (2 * Z.abs (Zpos m * 2 ^ e - Z.abs v) = 2 ^ e -> Z.even (Zpos m) = true))).
Proof.
  unfold longlong_range, LLONG_MIN, LLONG_MAX. intros Hv Hv0.
  rewrite double_of_longlong_sign. destruct v as [| p | p]; [lia | |].
  - destruct (Z_lt_le_dec (Zpos p) (2 ^ 53)) as [Hs | Hl].
    + destruct (binary_round_small false p Hs) as (m & e & -> & Hb & He & Hm).
      exists m, e. split; [reflexivity | split; [exact Hb | left; split; [lia | exact Hm]]].
    + destruct (binary_round_large false p ltac:(lia)) as (m & e & -> & Hb & He & Hm).
      exists m, e. split; [reflexivity | split; [exact Hb | right; split; [lia | exact Hm]]].
  - destruct (Z_lt_le_dec (Zpos p) (2 ^ 53)) as [Hs | Hl].
    + destruct (binary_round_small true p Hs) as (m & e & -> & Hb & He & Hm).
      exists m, e. split; [reflexivity | split; [exact Hb | left; split; [lia | exact Hm]]].
    + destruct (binary_round_large true p ltac:(lia)) as (m & e & -> & Hb & He & Hm).
      exists m, e. split; [reflexivity | split; [exact Hb | right; split; [lia | exact Hm]]].
Qed.

(** X10. An Integer operand of magnitude below [2 ^ 53] is converted to
    double without any rounding: the double has exactly the value of the
    Integer (and is a well-formed binary64 datum). *)
Theorem X10_small_integers_convert_exactly (v : Z) :
  Z.abs v < 2 ^ 53 ->
  has_value (coerce_double (rush_make_integer v)) (inject_Z v) /\
  valid_double (coerce_double (rush_make_integer v)) = true.
Proof.
  intros Hv. rewrite coerce_double_make_integer.
  apply double_of_longlong_exact; exact Hv.
Qed.

Lemma X10_small_integers_convert_exactly_witness :
  has_value (coerce_double (rush_make_integer (- (2 ^ 53 - 1))))
    (inject_Z (- (2 ^ 53 - 1))).
Proof.
  apply (X10_small_integers_convert_exactly (- (2 ^ 53 - 1))).
  cbn. lia.
Defined.



Lemma double_of_longlong_zero_iff (b : Z) :
  longlong_range b ->
  (double_eqb (double_of_longlong b) double_zero = true <-> b = 0).
Proof.
  intros Hb. split.
  - intros Hz. destruct (Z.eq_dec b 0) as [E | E]; [exact E |].
    destruct (double_of_longlong_rounded b Hb E) as (m & e & Heq & _).
    rewrite Heq in Hz. apply double_eqb_zero_iff in Hz.
    destruct Hz as [s Hs]. discriminate Hs.
  - intros ->. reflexivity.
Qed.

(** X20. With a Float on the left, dividing by an operand that is not a
    Float (an Integer, a Boolean, a String, a Null) returns the Null
    sentinel exactly when the payload of that operand is zero; otherwise it
    returns the Float of the quotient by the payload converted to double. *)
Theorem X20_divide_float_by_non_float (left right : RushObject) :
  type left = RUSH_FLOAT -> type right <> RUSH_FLOAT ->
  longlong_range (value right) ->
  (rush_divide left right = Some rush_make_null <-> value right = 0) /\
  (value right <> 0 ->
   rush_divide left right
   = Some (rush_make_float
             (double_div (coerce_double left) (double_of_longlong (value right))))).
Proof.
  intros Hl Hr Hv.
  rewrite (rush_divide_float_branch left right (or_introl Hl)).
  rewrite (coerce_double_not_float right Hr).
  pose proof (double_of_longlong_zero_iff (value right) Hv) as Hz.
  destruct (double_eqb (double_of_longlong (value right)) double_zero).
  - assert (H0 : value right = 0) by (apply Hz; reflexivity).
    split; [split; [intros _; exact H0 | reflexivity] | intros Hn; contradiction].
  - split; [| reflexivity].
    split.
    + intros H. injection H as H _. discriminate H.
    + intros H. apply Hz in H. discriminate H.
Qed.

Lemma X20_divide_float_by_non_float_witness :
  rush_divide (rush_make_float double_1_5) (rush_make_integer 0) = Some rush_make_null /\
  rush_divide (rush_make_float double_1_5) (rush_make_boolean 1)
  = Some (rush_make_float (double_div (coerce_double (rush_make_float double_1_5))
                             (double_of_longlong 1))).
Proof.
  assert (Hr0 : longlong_range 0) by (unfold longlong_range, LLONG_MIN, LLONG_MAX; lia).
  assert (Hr1 : longlong_range 1) by (unfold longlong_range, LLONG_MIN, LLONG_MAX; lia).
  split.
  - apply (proj1 (X20_divide_float_by_non_float
                    (rush_make_float double_1_5) (rush_make_integer 0)
                    eq_refl ltac:(discriminate) Hr0)).
    reflexivity.
  - apply (proj2 (X20_divide_float_by_non_float
                    (rush_make_float double_1_5) (rush_make_boolean 1)
                    eq_refl ltac:(discriminate) Hr1)).
    discriminate.
Defined.

(** * When divide returns Null; Null as an operand of a Float *)

Lemma rush_divide_integer_branch (left right : RushObject) :
  both_integer left right ->
  rush_divide left right =
    if value right =? 0 then Some rush_make_null
    else option_map rush_make_integer (longlong_div (value left) (value right)).
Proof.
  intros Hi. unfold rush_divide.
  by_kinds left right; try reflexivity; exfalso; lia.
Qed.

Lemma dispatch_rule_cases (left right : RushObject) :
  (both_integer left right /\ ~ either_float left right) \/
  (~ both_integer left right /\ either_float left right) \/
  (~ both_integer left right /\ ~ either_float left right).
Proof.
  unfold both_integer, either_float, RUSH_INTEGER, RUSH_FLOAT.
  destruct (Z.eq_dec (type left) 1), (Z.eq_dec (type right) 1),
    (Z.eq_dec (type left) 2), (Z.eq_dec (type right) 2); lia.
Qed.

(** X21. Divide returns the Null sentinel in exactly three situations:
    neither dispatch rule applies; both operands are Integers and the
    right one is 0; or an operand is a Float and the right operand,
    converted to double, compares equal to [0.0]. *)
Theorem X21_divide_null_iff (left right : RushObject) :
  rush_divide left right = Some rush_make_null <->
  (~ both_integer left right /\ ~ either_float left right) \/
  (both_integer left right /\ value right = 0) \/
  (either_float left right /\ double_eqb (coerce_double right) double_zero = true).
Proof.
  destruct (dispatch_rule_cases left right) as [[Hi Hnf] | [[Hni Hf] | [Hni Hnf]]].
  - rewrite (rush_divide_integer_branch left right Hi). unfold longlong_div.
    destruct (Z.eqb_spec (value right) 0) as [H0 | H0].
    + split; [intros _; right; left; split; assumption | reflexivity].
    + split.
      * destruct ((value left =? LLONG_MIN) && (value right =? -1)); cbn [option_map];
          intros H; [discriminate H | injection H as H _; discriminate H].
      * intros [[Hn _] | [[_ Hv] | [Hf _]]]; contradiction.
  - rewrite (rush_divide_float_branch left right Hf).
    destruct (double_eqb (coerce_double right) double_zero).
    + split; [intros _; right; right; split; [exact Hf | reflexivity] | reflexivity].
    + split.
      * intros H. injection H as H _. discriminate H.
      * intros [[_ Hn] | [[Hi _] | [_ Hz]]]; [contradiction | contradiction | discriminate Hz].
  - destruct (no_rule_applies left right Hni Hnf) as (_ & _ & _ & Hd).
    rewrite Hd. split; [intros _; left; split; assumption | reflexivity].
Qed.

Lemma null_coerces_to_zero : coerce_double rush_make_null = D_zero false.
Proof. reflexivity. Qed.

(** X22. Next to a Float the Null sentinel behaves as the number [0.0]:
    for a finite non-zero double [x], adding Null to the Float of [x] or
    subtracting it gives the Float of [x] back, multiplying by it gives the
    zero of the sign of [x], dividing Null by it gives that zero as well,
    and dividing by Null gives Null. *)
Theorem X22_null_is_zero_next_to_a_float (s : bool) (m : positive) (e : Z) :
  valid_double (D_finite s m e) = true ->
  let x := rush_make_float (D_finite s m e) in
  rush_add rush_make_null x = x /\
  rush_add x rush_make_null = x /\
  rush_subtract x rush_make_null = x /\
  rush_multiply x rush_make_null = rush_make_float (D_zero s) /\
  rush_multiply rush_make_null x = rush_make_float (D_zero s) /\
  rush_divide rush_make_null x = Some (rush_make_float (D_zero s)) /\
  rush_divide x rush_make_null = Some rush_make_null.
Proof.
  intros Hv x.
  destruct (float_branch_taken _ _ (either_float_right rush_make_null (D_finite s m e)))
    as (Ha & _ & Hm).
  destruct (float_branch_taken _ _ (either_float_left (D_finite s m e) rush_make_null))
    as (Ha' & Hs' & Hm').
  pose proof (rush_divide_float_branch _ _
                (either_float_right rush_make_null (D_finite s m e))) as Hd.
  pose proof (rush_divide_float_branch _ _
                (either_float_left (D_finite s m e) rush_make_null)) as Hd'.
  subst x. rewrite Ha, Ha', Hs', Hm, Hm', Hd, Hd'.
  rewrite !(coerce_double_make_float _ Hv), !null_coerces_to_zero.
  repeat split; try reflexivity.
  - unfold double_mul, double_binop. cbn. rewrite xorb_false_r. reflexivity.
  - destruct s; reflexivity.
Qed.

Lemma X22_null_is_zero_next_to_a_float_witness :
  rush_add rush_make_null (rush_make_float double_1_5) = rush_make_float double_1_5 /\
  rush_multiply (rush_make_float double_1_5) rush_make_null
  = rush_make_float (D_zero false).
Proof.
  pose proof (X22_null_is_zero_next_to_a_float false (3 * 2 ^ 51) (-52) eq_refl)
    as (Ha & _ & _ & Hm & _).
  split; [exact Ha | exact Hm].
Defined.
